(** * NFZ referral search: the search-and-ranking core

    A shallow embedding of [src/lib/nfz-api.ts] (the registry client and the
    utility functions that follow it: [formatDate], [calculateDistance],
    [parseReferral]) and of [searchFacilities] in
    [src/components/NFZSearch.tsx], followed by the properties of the
    specification that concern them.

    Conventions.
    - A JavaScript string is the list of its UTF-16 code units ([jsstring]);
      [length] is therefore the [.length] of the source.
    - A JavaScript number is [NaN], an infinity, or a finite value; finite
      values are idealised as real numbers (no rounding of the arithmetic).
      Where the rounding matters, as it does for the symmetry of the
      distance, the module [Binary64] has the same code over the binary64
      values themselves.
    - Platform functions whose tables depend on the engine or the locale
      ([String.prototype.toLowerCase], [Date.prototype.toLocaleDateString],
      [URL], [fetch]) are taken as parameters of the code that calls them. *)

From Stdlib Require Import List ZArith NArith Bool Ascii String Lia.
From Stdlib Require Import Permutation Sorted.
From Stdlib Require Import Reals Lra ROrderedType.
From Stdlib Require Import SpecFloat.
Import ListNotations.

Set Implicit Arguments.

(* ================================================================== *)
(** ** JavaScript strings *)

Module JS.

(** One UTF-16 code unit. *)
Definition codeunit := N.

(** The value of a JavaScript string. *)
Definition jsstring := list codeunit.

Definition codeunit_eqb (a b : codeunit) : bool := N.eqb a b.

Fixpoint jsstring_eqb (s t : jsstring) : bool :=
  match s, t with
  | [], [] => true
  | a :: s', b :: t' => codeunit_eqb a b && jsstring_eqb s' t'
  | _, _ => false
  end.

(** *** Literals

    The literals of the source are written as Rocq strings, that is as the
    UTF-8 bytes of this file; [utf16] turns the bytes into the code units the
    JavaScript engine holds (one unit for a code point of the Basic
    Multilingual Plane, a surrogate pair above it). *)

Definition cont (b : N) : N := N.land b 63.

Definition units_of_codepoint (cp : N) : list codeunit :=
  if (cp <? 65536)%N then [cp]
  else let v := (cp - 65536)%N in
       [(55296 + N.shiftr v 10)%N; (56320 + N.land v 1023)%N].

Fixpoint decode_utf8 (bs : list N) : list codeunit :=
  match bs with
  | [] => []
  | b0 :: r0 =>
    if (b0 <? 128)%N then b0 :: decode_utf8 r0
    else match r0 with
    | [] => [65533%N]
    | b1 :: r1 =>
      if (b0 <? 224)%N then
        (N.shiftl (N.land b0 31) 6 + cont b1)%N :: decode_utf8 r1
      else match r1 with
      | [] => [65533%N]
      | b2 :: r2 =>
        if (b0 <? 240)%N then
          (N.shiftl (N.land b0 15) 12 + N.shiftl (cont b1) 6 + cont b2)%N
            :: decode_utf8 r2
        else match r2 with
        | [] => [65533%N]
        | b3 :: r3 =>
          units_of_codepoint
            (N.shiftl (N.land b0 7) 18 + N.shiftl (cont b1) 12
             + N.shiftl (cont b2) 6 + cont b3)%N
            ++ decode_utf8 r3
        end
      end
    end
  end.

Definition utf16 (s : string) : jsstring :=
  decode_utf8 (map N_of_ascii (list_ascii_of_string s)).

Definition SPACE : codeunit := 32%N.

(** *** [String.prototype] functions used by the source *)

(** [s.startsWith(p)], used to define the searches below. *)
Fixpoint startsWith (p s : jsstring) : bool :=
  match p, s with
  | [], _ => true
  | a :: p', b :: s' => codeunit_eqb a b && startsWith p' s'
  | _ :: _, [] => false
  end.

(** Smallest position [k >= i] (positions counted from [i] at the head of
    [s]) at which [p] starts, or [-1]. *)
Fixpoint search_forward (p s : jsstring) (i : Z) : Z :=
  if startsWith p s then i
  else match s with
       | [] => (-1)%Z
       | _ :: s' => search_forward p s' (i + 1)
       end.

(** Largest position [k <= limit] at which [p] starts, or [best] when there
    is none; the head of [s] is position [i]. *)
Fixpoint search_backward (p s : jsstring) (i limit best : Z) : Z :=
  let best' := if (i <=? limit)%Z && startsWith p s then i else best in
  match s with
  | [] => best'
  | _ :: s' => search_backward p s' (i + 1) limit best'
  end.

Definition clamp (len k : Z) : Z := Z.min (Z.max k 0) len.

Definition len (s : jsstring) : Z := Z.of_nat (List.length s).

(** [s.indexOf(p, position)]. *)
Definition indexOf (s p : jsstring) (position : Z) : Z :=
  let k := clamp (len s) position in
  search_forward p (skipn (Z.to_nat k) s) k.

(** [s.lastIndexOf(p, position)]. *)
Definition lastIndexOf (s p : jsstring) (position : Z) : Z :=
  search_backward p s 0 (clamp (len s) position) (-1).

(** [s.includes(p)]. *)
Definition includes (s p : jsstring) : bool :=
  negb (indexOf s p 0 =? -1)%Z.

(** [s.substring(start, end)]; [None] is an [undefined] end. *)
Definition substring (s : jsstring) (start : Z) (end_ : option Z) : jsstring :=
  let a := clamp (len s) start in
  let b := match end_ with Some e => clamp (len s) e | None => len s end in
  let lo := Z.min a b in
  let hi := Z.max a b in
  firstn (Z.to_nat (hi - lo)) (skipn (Z.to_nat lo) s).

(** [s.split(" ")]. *)
Fixpoint split_space (s : jsstring) : list jsstring :=
  match s with
  | [] => [[]]
  | c :: r =>
    if codeunit_eqb c SPACE then [] :: split_space r
    else match split_space r with
         | w :: ws => (c :: w) :: ws
         | [] => [[c]]
         end
  end.

(** [words.includes(word)] on an array of strings. *)
Definition array_includes (l : list jsstring) (w : jsstring) : bool :=
  existsb (jsstring_eqb w) l.

(** The class [[.,\/#!$%\^&\*;:{}=\-_`~()]] of the first [replace]. *)
Definition punctuation : jsstring :=
  Eval cbv in utf16 ".,/#!$%^&*;:{}=-_`~()".

Definition is_punctuation (c : codeunit) : bool :=
  existsb (codeunit_eqb c) punctuation.

(** The class [\s] of a regular expression without the [u] flag. *)
Definition is_whitespace (c : codeunit) : bool :=
  existsb (codeunit_eqb c)
    [9; 10; 11; 12; 13; 32; 160; 5760; 8232; 8233; 8239; 8287; 12288; 65279]%N
  || ((8192 <=? c) && (c <=? 8202))%N.

(** [s.replace(/[.,\/#!$%\^&\*;:{}=\-_`~()]/g, " ")]: every code unit of the
    class becomes one space. *)
Definition replace_punctuation (s : jsstring) : jsstring :=
  map (fun c => if is_punctuation c then SPACE else c) s.

(** [s.replace(/\s{2,}/g, " ")]: scanning from the left, a maximal run of two
    or more white-space units becomes one space; a white-space unit that
    stands alone is kept as it is. [in_run] is the scanner inside a run whose
    space has been written already. *)
Fixpoint replace_whitespace_runs (s : jsstring) : jsstring :=
  match s with
  | [] => []
  | c :: r =>
    if is_whitespace c then
      match r with
      | d :: _ => if is_whitespace d then SPACE :: in_run r
                  else c :: replace_whitespace_runs r
      | [] => [c]
      end
    else c :: replace_whitespace_runs r
  end
with in_run (s : jsstring) : jsstring :=
  match s with
  | [] => []
  | c :: r => if is_whitespace c then in_run r
              else c :: replace_whitespace_runs r
  end.

(** Decimal digits of a non-negative integer, as in a template literal. *)
Definition digit (d : N) : codeunit := (48 + d)%N.

Fixpoint digits_fuel (fuel : nat) (n : N) (acc : jsstring) : jsstring :=
  match fuel with
  | O => acc
  | S fuel' =>
    let acc' := digit (n mod 10) :: acc in
    if (n <? 10)%N then acc' else digits_fuel fuel' (n / 10) acc'
  end.

Definition N_toString (n : N) : jsstring :=
  digits_fuel (S (N.to_nat (N.log2 n))) n [].

(* ------------------------------------------------------------------ *)
(** *** Numbers *)

(** A JavaScript number. The finite values are idealised as reals. *)
Inductive number : Type :=
  | NaN
  | Infinity
  | NegInfinity
  | Num (r : R).

(** [a - b]. *)
Definition sub (a b : number) : number :=
  match a, b with
  | NaN, _ | _, NaN => NaN
  | Num x, Num y => Num (x - y)
  | Infinity, Infinity | NegInfinity, NegInfinity => NaN
  | Infinity, _ => Infinity
  | NegInfinity, _ => NegInfinity
  | Num _, Infinity => NegInfinity
  | Num _, NegInfinity => Infinity
  end.

(** [ToBoolean] on a number: [0] and [NaN] are falsy. *)
Definition truthy (v : number) : bool :=
  match v with
  | NaN => false
  | Num r => if Req_dec_T r 0 then false else true
  | Infinity | NegInfinity => true
  end.

(** [v || d] for a property [v] that may be [undefined] ([None]). *)
Definition or_else (v : option number) (d : number) : number :=
  match v with
  | Some x => if truthy x then x else d
  | None => d
  end.

(** [Math.round]: the nearest integer, halves going up. *)
Definition Math_round (x : R) : R := IZR (Int_part (x + / 2)).

(** [Math.atan2(y, x)] on finite arguments. *)
Definition Math_atan2 (y x : R) : R :=
  match Rcompare x 0 with
  | Gt => atan (y / x)
  | Lt => if Rlt_dec y 0 then atan (y / x) - PI else atan (y / x) + PI
  | Eq => match Rcompare y 0 with
          | Gt => PI / 2
          | Lt => - (PI / 2)
          | Eq => 0
          end
  end%R.

(* ------------------------------------------------------------------ *)
(** *** Dates

    [new Date(s).getTime()] for the date-only form [YYYY-MM-DD] of the
    ECMAScript date-time string format, which is the form the registry sends
    (see the comment of [formatDate]): the time value of midnight UTC of that
    day. The empty string is an invalid date, whose time value is [NaN].
    For a string of any other shape (a day past the end of its month, a date
    with a time) the language leaves the reading to the engine, which may
    find a date in it; [Date_getTime] answers [NaN] there, so what is
    proved of dates is proved of the date-only form and of the empty
    string. *)

Definition digit_value (c : codeunit) : option Z :=
  if ((48 <=? c) && (c <=? 57))%N then Some (Z.of_N c - 48)%Z else None.

Definition number2 (a b : codeunit) : option Z :=
  match digit_value a, digit_value b with
  | Some x, Some y => Some (10 * x + y)%Z
  | _, _ => None
  end.

Definition number4 (a b c d : codeunit) : option Z :=
  match number2 a b, number2 c d with
  | Some x, Some y => Some (100 * x + y)%Z
  | _, _ => None
  end.

Definition HYPHEN : codeunit := 45%N.

Definition InLeapYear (y : Z) : bool :=
  ((y mod 4 =? 0) && negb (y mod 100 =? 0) || (y mod 400 =? 0))%Z.

Definition DayFromYear (y : Z) : Z :=
  (365 * (y - 1970) + (y - 1969) / 4 - (y - 1901) / 100 + (y - 1601) / 400)%Z.

Definition DaysInMonth (y m : Z) : Z :=
  (if m =? 2 then (if InLeapYear y then 29 else 28)
   else if (m =? 4) || (m =? 6) || (m =? 9) || (m =? 11) then 30
   else 31)%Z.

(** Days of the year [y] before its month [m] ([1..12]). *)
Fixpoint days_before (y : Z) (months : nat) : Z :=
  match months with
  | O => 0%Z
  | S k => (days_before y k + DaysInMonth y (Z.of_nat (S k)))%Z
  end.

Definition MakeDay (y m d : Z) : Z :=
  (DayFromYear y + days_before y (Z.to_nat (m - 1)) + (d - 1))%Z.

Definition msPerDay : Z := 86400000%Z.

Definition parse_date_only (s : jsstring) : option Z :=
  match s with
  | [y1; y2; y3; y4; h1; m1; m2; h2; d1; d2] =>
    match number4 y1 y2 y3 y4, number2 m1 m2, number2 d1 d2 with
    | Some y, Some m, Some d =>
      if codeunit_eqb h1 HYPHEN && codeunit_eqb h2 HYPHEN
         && (1 <=? m)%Z && (m <=? 12)%Z
         && (1 <=? d)%Z && (d <=? DaysInMonth y m)%Z
      then Some (MakeDay y m d * msPerDay)%Z
      else None
    | _, _, _ => None
    end
  | _ => None
  end.

Definition Date_getTime (s : jsstring) : number :=
  match parse_date_only s with
  | Some t => Num (IZR t)
  | None => NaN
  end.

(* ------------------------------------------------------------------ *)
(** *** [Array.prototype.sort]

    The specification of the language asks for a stable sort and passes each
    result of the comparison function through [SortCompare], which reads
    [NaN] as [+0]. When the comparison function is a consistent comparator
    every conforming engine returns the list computed here by a stable
    insertion sort. (For an inconsistent comparator the order depends on the
    engine; this function is then one possible outcome, and the only one when
    no comparison of the input answers anything but zero.) *)

Definition SortCompare (v : number) : number :=
  match v with
  | NaN => Num 0
  | _ => v
  end.

Definition positive (v : number) : bool :=
  match v with
  | Infinity => true
  | Num r => if Rlt_dec 0 r then true else false
  | NaN | NegInfinity => false
  end.

Section Sort.
Variable A : Type.
Variable comparefn : A -> A -> number.

(** [x] is to stand behind [y]: their comparison is positive. *)
Definition behind (x y : A) : bool := positive (SortCompare (comparefn x y)).

(** [x] originally stands before every element of [l]; it moves behind the
    elements it is strictly greater than. *)
Fixpoint insert (x : A) (l : list A) : list A :=
  match l with
  | [] => [x]
  | y :: l' => if behind x y then y :: insert x l' else x :: l
  end.

Definition Array_sort (l : list A) : list A := fold_right insert [] l.
End Sort.

End JS.

Import JS.

(* ================================================================== *)
(** ** [src/lib/nfz-api.ts]: the registry client *)

Module Api.

(** Province codes mapped to voivodeships; an object literal, kept as the
    list of its properties in the order they are written. *)
Definition PROVINCES : list (jsstring * jsstring) :=
  [ (utf16 "01", utf16 "DOLNOŚLĄSKIE");
    (utf16 "02", utf16 "KUJAWSKO-POMORSKIE");
    (utf16 "03", utf16 "LUBELSKIE");
    (utf16 "04", utf16 "LUBUSKIE");
    (utf16 "05", utf16 "ŁÓDZKIE");
    (utf16 "06", utf16 "MAŁOPOLSKIE");
    (utf16 "07", utf16 "MAZOWIECKIE");
    (utf16 "08", utf16 "OPOLSKIE");
    (utf16 "09", utf16 "PODKARPACKIE");
    (utf16 "10", utf16 "PODLASKIE");
    (utf16 "11", utf16 "POMORSKIE");
    (utf16 "12", utf16 "ŚLĄSKIE");
    (utf16 "13", utf16 "ŚWIĘTOKRZYSKIE");
    (utf16 "14", utf16 "WARMIŃSKO-MAZURSKIE");
    (utf16 "15", utf16 "WIELKOPOLSKIE");
    (utf16 "16", utf16 "ZACHODNIOPOMORSKIE") ].

(** [PROVINCES[code]]; [None] is [undefined]. *)
Fixpoint get (o : list (jsstring * jsstring)) (key : jsstring)
  : option jsstring :=
  match o with
  | [] => None
  | (k, v) :: o' => if jsstring_eqb k key then Some v else get o' key
  end.

(** [keyof typeof PROVINCES]. *)
Definition ProvinceCode (code : jsstring) : Prop := In code (map fst PROVINCES).

Definition is_digit (c : codeunit) : bool := ((48 <=? c) && (c <=? 57))%N.

Definition two_digit (code : jsstring) : bool :=
  match code with
  | [a; b] => is_digit a && is_digit b
  | _ => false
  end.

(** [enum CaseType]. *)
Inductive CaseType : Type := STABLE | URGENT.

Definition CaseType_value (c : CaseType) : N :=
  match c with STABLE => 1 | URGENT => 2 end.

Record NFZError : Type := {
  id : jsstring;
  error_result : jsstring;
  error_reason : jsstring;
  error_solution : jsstring;
  error_help : jsstring;
  error_code : Z
}.

Record QueueDates : Type := {
  applicable : bool;
  date : jsstring;
  date_situation_as_at : jsstring
}.

(** The attributes of a queue that the search reads or shows; the remaining
    fields of the interface (codes, statistics, amenities) are read by no
    function of the repository. *)
Record QueueAttributes : Type := {
  case_ : N;
  benefit : jsstring;
  provider : jsstring;
  place : jsstring;
  address : jsstring;
  locality : jsstring;
  phone : jsstring;
  latitude : R;
  longitude : R;
  dates : QueueDates
}.

Record Queue : Type := {
  type : jsstring;
  queue_id : jsstring;
  attributes : QueueAttributes
}.

Record QueuesResponse : Type := { data : list Queue }.

(** A value of a request parameter. *)
Inductive param : Type :=
  | PString (s : jsstring)
  | PNumber (n : N)
  | PBoolean (b : bool)
  | PUndefined.

(** [SearchParams]: an object, as the list of its properties. *)
Definition SearchParams := list (jsstring * param).

(** [{ ...params, key: value }]. *)
Fixpoint with_property (params : SearchParams) (key : jsstring) (value : param)
  : SearchParams :=
  match params with
  | [] => [(key, value)]
  | (k, v) :: rest =>
    if jsstring_eqb k key then (k, value) :: rest
    else (k, v) :: with_property rest key value
  end.

(** What a [throw] or a rejected promise carries. *)
Inductive thrown : Type :=
  | Error (message : jsstring)      (* [new Error(message)] *)
  | TypeError                       (* raised by the engine *)
  | Rejection (reason : jsstring).  (* a rejection of [fetch] or of [json()] *)

(** The body of a response once parsed: ["errors" in data] holds for
    [ErrorResponse] and for nothing else. The body is taken to be an object
    ([in] throws on [null], a number or a string), and [errors] to be an
    array of objects. *)
Inductive body (T : Type) : Type :=
  | ErrorResponse (errors : list NFZError)
  | Data (value : T).
Arguments ErrorResponse {T} errors.
Arguments Data {T} value.

Record Response (T : Type) : Type := {
  ok : bool;
  status : N;
  statusText : jsstring;
  json : thrown + body T
}.

(** A line written by [console.error]. *)
Definition console := list (jsstring * thrown).

Section Client.
Variable T : Type.
Variable URL : Type.
(** [buildUrl], which relies on the platform's [URL] serialisation. The
    address is taken to be one that [new URL] accepts: [buildUrl] is called
    before the [try] block, so an address it rejects throws without a line
    on the console. *)
Variable buildUrl : jsstring -> option SearchParams -> URL.
(** The network: what [await fetch(url)] gives for each address. *)
Variable fetch : URL -> thrown + Response T.

(** The body of the [try] block of [request]. *)
Definition attempt (url : URL) : thrown + T :=
  match fetch url with
  | inl e => inl e
  | inr response =>
    if negb (ok response) then
      inl (Error (utf16 "NFZ API request failed: "
                  ++ N_toString (status response) ++ utf16 " "
                  ++ statusText response))
    else
      match json response with
      | inl e => inl e
      | inr (ErrorResponse errors) =>
        match errors with
        | [] => inl TypeError
        | e0 :: _ =>
          inl (Error (utf16 "NFZ API error: " ++ error_reason e0
                      ++ utf16 " - " ++ error_solution e0))
        end
      | inr (Data value) => inr value
      end
  end.

(** [request]: one attempt; an error is logged and thrown again. *)
Definition request (endpoint : jsstring) (params : option SearchParams)
  : console * (thrown + T) :=
  let url := buildUrl endpoint params in
  match attempt url with
  | inl error => ([(utf16 "NFZ API request failed:", error)], inl error)
  | inr value => ([], inr value)
  end.
End Client.

(** [getQueues]. *)
Definition getQueues (URL : Type)
    (buildUrl : jsstring -> option SearchParams -> URL)
    (fetch : URL -> thrown + Response QueuesResponse)
    (params : SearchParams) : console * (thrown + QueuesResponse) :=
  request buildUrl fetch (utf16 "/queues")
    (Some (with_property params (utf16 "format") (PString (utf16 "json")))).

End Api.

(* ================================================================== *)
(** ** The utility functions ([formatDate], [calculateDistance],
       [parseReferral]) *)

Module Utils.

Section FormatDate.
(** [date.toLocaleDateString("pl-PL", options)] as a function of the time
    value of [date]; it depends on the locale data and the time zone of the
    engine. *)
Variable toLocaleDateString : number -> jsstring.

Definition formatDate (dateString : jsstring) : jsstring :=
  match dateString with
  | [] => []
  | _ => toLocaleDateString (Date_getTime dateString)
  end.
End FormatDate.

Definition deg2rad (deg : R) : R := (deg * (PI / 180))%R.

(** Distance between two points using the haversine formula, with the
    arithmetic of the real numbers. The engine rounds every operation to
    binary64: its result can differ from this one by the rounding (by one
    tenth where [distance * 10] is near a half), and for two nearly
    antipodal points the rounded [a] can exceed 1, where the engine returns
    [NaN]. [Binary64.calculateDistance] has the rounding. *)
Definition calculateDistance (lat1 lon1 lat2 lon2 : R) : R :=
  (let R := 6371 in
   let dLat := deg2rad (lat2 - lat1) in
   let dLon := deg2rad (lon2 - lon1) in
   let a :=
     sin (dLat / 2) * sin (dLat / 2) +
     cos (deg2rad lat1) * cos (deg2rad lat2) * sin (dLon / 2) * sin (dLon / 2) in
   let c := 2 * Math_atan2 (sqrt a) (sqrt (1 - a)) in
   let distance := R * c in
   Math_round (distance * 10) / 10)%R.

Record Referral : Type := {
  benefit : jsstring;
  keywords : list jsstring
}.

Definition stopWords : list jsstring :=
  [utf16 "i"; utf16 "do"; utf16 "na"; utf16 "w"; utf16 "z"; utf16 "dla";
   utf16 "od"; utf16 "przez"].

Definition benefitKeywords : list jsstring :=
  [utf16 "poradnia"; utf16 "oddziaÅ‚"; utf16 "pracownia";
   utf16 "rehabilitacja"].

(** The complete phrase around the first occurrence of [keyword]. *)
Definition phrase_around (normalizedText keyword : jsstring) : jsstring :=
  let index := indexOf normalizedText keyword 0 in
  let start := (lastIndexOf normalizedText (utf16 " ") index + 1)%Z in
  let end_ := indexOf normalizedText (utf16 " ") (index + len keyword) in
  substring normalizedText start (if (end_ >? 0)%Z then Some end_ else None).

(** The loop [for (const keyword of benefitKeywords)] with its [break];
    [benefit] stays empty when no keyword is included. *)
Fixpoint first_keyword_phrase (normalizedText : jsstring)
    (keywords : list jsstring) : jsstring :=
  match keywords with
  | [] => []
  | keyword :: rest =>
    if includes normalizedText keyword then phrase_around normalizedText keyword
    else first_keyword_phrase normalizedText rest
  end.

Section ParseReferral.
(** [String.prototype.toLowerCase]. *)
Variable toLowerCase : jsstring -> jsstring.

Definition normalize (text : jsstring) : jsstring :=
  replace_whitespace_runs (replace_punctuation (toLowerCase text)).

Definition parseReferral (text : jsstring) : Referral :=
  let normalizedText := normalize text in
  let words := split_space normalizedText in
  let keywords :=
    filter (fun word => (2 <? len word)%Z && negb (array_includes stopWords word))
           words in
  let benefit := first_keyword_phrase normalizedText benefitKeywords in
  {| benefit := benefit; keywords := keywords |}.
End ParseReferral.

(** [toLowerCase] on texts written in Basic Latin and the Polish alphabet,
    on which it agrees with the function of the engine; other code units are
    left as they are. *)
Definition lower_unit (c : codeunit) : codeunit :=
  if ((65 <=? c) && (c <=? 90))%N then (c + 32)%N
  else if (c =? 211)%N then 243%N
  else if existsb (codeunit_eqb c) [260; 262; 280; 321; 323; 346; 377; 379]%N
       then (c + 1)%N
  else c.

Definition toLowerCase_pl (s : jsstring) : jsstring := map lower_unit s.

(** The reading of the specification: the trigger words are looked for
    position by position, and the first position of the text at which any of
    them starts decides; the phrase runs from the previous white space to the
    next one. *)
Fixpoint first_trigger_position (triggers : list jsstring) (s : jsstring)
    (i : Z) : option (Z * jsstring) :=
  match find (fun k => startsWith k s) triggers with
  | Some k => Some (i, k)
  | None => match s with
            | [] => None
            | _ :: s' => first_trigger_position triggers s' (i + 1)
            end
  end.

Fixpoint take_until_whitespace (s : jsstring) : jsstring :=
  match s with
  | [] => []
  | c :: r => if is_whitespace c then [] else c :: take_until_whitespace r
  end.

Definition phrase_in_text_order (normalizedText : jsstring) : jsstring :=
  match first_trigger_position benefitKeywords normalizedText 0 with
  | None => []
  | Some (i, k) =>
    let before := firstn (Z.to_nat i) normalizedText in
    let after := skipn (Z.to_nat i) normalizedText in
    rev (take_until_whitespace (rev before)) ++ take_until_whitespace after
  end.

End Utils.

(* ================================================================== *)
(** ** [calculateDistance] and [deg2rad] on binary64 values

    The same two functions as in [Utils], with the arithmetic of the
    engine: every operator rounds to the nearest binary64 value. *)

Module Binary64.

(** The Number type: IEEE 754 binary64, with one [NaN]. *)
Definition prec : Z := 53%Z.
Definition emax : Z := 1024%Z.

(** The operators [-], [+], [*] and [/] on numbers. *)
Definition minus : spec_float -> spec_float -> spec_float := SFsub prec emax.
Definition plus : spec_float -> spec_float -> spec_float := SFadd prec emax.
Definition times : spec_float -> spec_float -> spec_float := SFmul prec emax.
Definition over : spec_float -> spec_float -> spec_float := SFdiv prec emax.

(** The value of an integer literal. *)
Definition of_integer (n : Z) : spec_float :=
  binary_normalize prec emax n 0 false.

(** [Math.PI], 0x1.921fb54442d18p+1. *)
Definition Math_PI : spec_float := S754_finite false 7074237752028440 (-51).



Section Distance.
(** The functions of [Math], whose results the language leaves to the
    engine. *)
Variables Math_sin Math_cos Math_sqrt Math_round : spec_float -> spec_float.
Variable Math_atan2 : spec_float -> spec_float -> spec_float.

Definition deg2rad (deg : spec_float) : spec_float :=
  times deg (over Math_PI (of_integer 180)).

(** Distance between two points using the haversine formula. *)
Definition calculateDistance (lat1 lon1 lat2 lon2 : spec_float) : spec_float :=
  let R := of_integer 6371 in
  let dLat := deg2rad (minus lat2 lat1) in
  let dLon := deg2rad (minus lon2 lon1) in
  let a :=
    plus (times (Math_sin (over dLat (of_integer 2)))
                (Math_sin (over dLat (of_integer 2))))
         (times (times (times (Math_cos (deg2rad lat1))
                              (Math_cos (deg2rad lat2)))
                       (Math_sin (over dLon (of_integer 2))))
                (Math_sin (over dLon (of_integer 2)))) in
  let c :=
    times (of_integer 2)
          (Math_atan2 (Math_sqrt a) (Math_sqrt (minus (of_integer 1) a))) in
  let distance := times R c in
  over (Math_round (times distance (of_integer 10))) (of_integer 10).
End Distance.
End Binary64.

(* ================================================================== *)
(** ** [src/components/NFZSearch.tsx]: [searchFacilities] *)

Module NFZSearch.
Import Api.

(** [Queue & { distance?: number }]; [None] is a record without the
    property. *)
Record Facility : Type := {
  queue : Queue;
  distance : option number
}.

Record Location : Type := { lat : R; lon : R }.

(** The state of the component that [searchFacilities] reads or sets. *)
Record State : Type := {
  selectedBenefit : jsstring;
  customBenefit : jsstring;
  useCustomBenefit : bool;
  userLocation : option Location;
  province : jsstring;
  locality : jsstring;
  benefitsForChildren : bool;
  results : list Facility;
  loading : bool;
  error : option jsstring;
  summary : option jsstring
}.

(** The comparison function of the first [sort] (by date, earliest first). *)
Definition byDate (a b : Queue) : number :=
  let dateA := date (dates (attributes a)) in
  let dateB := date (dates (attributes b)) in
  sub (Date_getTime dateA) (Date_getTime dateB).

Definition sortByDate (facilitiesFound : list Queue) : list Queue :=
  Array_sort byDate facilitiesFound.

(** The function mapped over the records when the location is known. *)
Definition withDistance (userLocation : Location) (facility : Queue)
  : Facility :=
  let distance :=
    Utils.calculateDistance (lat userLocation) (lon userLocation)
      (latitude (attributes facility)) (longitude (attributes facility)) in
  {| queue := facility; distance := Some (Num distance) |}.

(** A record of the registry, which has no [distance]. *)
Definition unannotated (facility : Queue) : Facility :=
  {| queue := facility; distance := None |}.

(** The comparison function of the second [sort] (by distance, closest
    first). *)
Definition byDistance (a b : Facility) : number :=
  let distanceA := or_else (distance a) Infinity in
  let distanceB := or_else (distance b) Infinity in
  sub distanceA distanceB.

Definition sortByDistance (facilitiesFound : list Facility) : list Facility :=
  Array_sort byDistance facilitiesFound.

(** The block [if (userLocation) { ... }]: add the distance and sort by it;
    without a location the records stay as they are. *)
Definition annotateDistance (userLocation : option Location)
    (facilitiesFound : list Queue) : list Facility :=
  match userLocation with
  | Some here => sortByDistance (map (withDistance here) facilitiesFound)
  | None => map unannotated facilitiesFound
  end.

Definition noResults : jsstring :=
  utf16 "Nie znaleziono placówek dla podanych kryteriów.".

Definition searchFailed : jsstring :=
  utf16 "Wystąpił błąd podczas wyszukiwania placówek. "
  ++ utf16 "Sprawdź poprawność wprowadzonych danych.".

Definition noProvince : jsstring := utf16 "Proszę wybrać województwo".

Section Component.
Variable toLocaleDateString : number -> jsstring.
Variable URL : Type.
Variable buildUrl : jsstring -> option SearchParams -> URL.
Variable fetch : URL -> thrown + Response QueuesResponse.

(** The block [if (facilitiesFound.length > 0) { ... }] up to
    [setSummary]; [None] leaves the summary as it is. *)
Definition summarize (facilitiesFound : list Facility) : option jsstring :=
  match facilitiesFound with
  | [] => None
  | first :: _ =>
    let earliestDate :=
      Utils.formatDate toLocaleDateString
        (date (dates (attributes (queue first)))) in
    let nearestFacility := provider (attributes (queue first)) in
    let nearestLocation := Api.locality (attributes (queue first)) in
    Some (utf16 "Znaleziono "
          ++ N_toString (N.of_nat (List.length facilitiesFound))
          ++ utf16 " placówek. "
          ++ utf16 "Najbliższy termin: " ++ earliestDate
          ++ utf16 " w " ++ nearestFacility
          ++ utf16 " (" ++ nearestLocation ++ utf16 ").")
  end.

(** What one run of [searchFacilities] leaves behind: the state of the
    component, the lines of the console and the argument [onResultsFound] is
    called with (by a component that was given this property). *)
Record Run : Type := {
  state : State;
  logged : console;
  onResultsFound : option (list Facility)
}.

Definition set_searching (st : State) : State :=
  {| selectedBenefit := selectedBenefit st;
     customBenefit := customBenefit st;
     useCustomBenefit := useCustomBenefit st;
     userLocation := userLocation st;
     province := province st;
     locality := locality st;
     benefitsForChildren := benefitsForChildren st;
     results := results st;
     loading := true;
     error := None;
     summary := None |}.

Definition set_outcome (st : State) (results' : list Facility)
    (error' summary' : option jsstring) : State :=
  {| selectedBenefit := selectedBenefit st;
     customBenefit := customBenefit st;
     useCustomBenefit := useCustomBenefit st;
     userLocation := userLocation st;
     province := province st;
     locality := locality st;
     benefitsForChildren := benefitsForChildren st;
     results := results';
     loading := false;
     error := error';
     summary := summary' |}.

Definition set_error (st : State) (error' : jsstring) : State :=
  {| selectedBenefit := selectedBenefit st;
     customBenefit := customBenefit st;
     useCustomBenefit := useCustomBenefit st;
     userLocation := userLocation st;
     province := province st;
     locality := locality st;
     benefitsForChildren := benefitsForChildren st;
     results := results st;
     loading := loading st;
     error := Some error';
     summary := summary st |}.

Definition searchFacilities (st : State) : Run :=
  let benefitToUse :=
    if useCustomBenefit st then customBenefit st else selectedBenefit st in
  match province st with
  | [] =>
    {| state := set_error st noProvince; logged := [];
       onResultsFound := None |}
  | _ =>
    let st1 := set_searching st in
    let params : SearchParams :=
      [ (utf16 "case", PNumber (CaseType_value STABLE));
        (utf16 "province", PString (province st));
        (utf16 "benefit", PString benefitToUse);
        (utf16 "benefitForChildren", PBoolean (benefitsForChildren st));
        (utf16 "locality",
         match locality st with [] => PUndefined | l => PString l end);
        (utf16 "limit", PNumber 25) ] in
    match getQueues buildUrl fetch params with
    | (lines, inl err) =>
      {| state := set_outcome st1 (results st1) (Some searchFailed) None;
         logged := lines ++ [(utf16 "Error searching facilities:", err)];
         onResultsFound := None |}
    | (lines, inr response) =>
      match data response with
      | [] =>
        {| state := set_outcome st1 [] None (Some noResults);
           logged := lines; onResultsFound := None |}
      | _ =>
        let facilitiesFound :=
          annotateDistance (userLocation st) (sortByDate (data response)) in
        {| state := set_outcome st1 facilitiesFound None
                      (summarize facilitiesFound);
           logged := lines;
           onResultsFound :=
             match facilitiesFound with
             | [] => None
             | _ => Some facilitiesFound
             end |}
      end
    end
  end.
End Component.

End NFZSearch.

(* ================================================================== *)
(** ** [src/lib/nfz-api.ts]: the table of benefits and the rest of the
       client *)

Module Client.
Import Api.

(** Common benefit types: registry names mapped to display names; an object
    literal, kept as the list of its properties in the order they are
    written (no key is an array index, so this is also the order of
    [Object.keys]). *)
Definition COMMON_BENEFITS : list (jsstring * jsstring) :=
  [ (utf16 "PORADNIA KARDIOLOGICZNA", utf16 "Poradnia kardiologiczna");
    (utf16 "PORADNIA OKULISTYCZNA", utf16 "Poradnia okulistyczna");
    (utf16 "PORADNIA NEUROLOGICZNA", utf16 "Poradnia neurologiczna");
    (utf16 "PORADNIA ORTOPEDYCZNA", utf16 "Poradnia ortopedyczna");
    (utf16 "PORADNIA GINEKOLOGICZNO-POŁOŻNICZA",
     utf16 "Poradnia ginekologiczno-położnicza");
    (utf16 "PORADNIA UROLOGICZNA", utf16 "Poradnia urologiczna");
    (utf16 "PORADNIA CHIRURGII OGÓLNEJ", utf16 "Poradnia chirurgii ogólnej");
    (utf16 "PORADNIA OTOLARYNGOLOGICZNA", utf16 "Poradnia otolaryngologiczna");
    (utf16 "PORADNIA DERMATOLOGICZNA", utf16 "Poradnia dermatologiczna");
    (utf16 "PORADNIA ENDOKRYNOLOGICZNA", utf16 "Poradnia endokrynologiczna");
    (utf16 "PORADNIA DIABETOLOGICZNA", utf16 "Poradnia diabetologiczna");
    (utf16 "PORADNIA GASTROENTEROLOGICZNA",
     utf16 "Poradnia gastroenterologiczna");
    (utf16 "PORADNIA REUMATOLOGICZNA", utf16 "Poradnia reumatologiczna");
    (utf16 "PORADNIA PULMONOLOGICZNA", utf16 "Poradnia pulmonologiczna");
    (utf16 "PORADNIA ZDROWIA PSYCHICZNEGO",
     utf16 "Poradnia zdrowia psychicznego");
    (utf16 "ODDZIAŁ CHORÓB WEWNĘTRZNYCH", utf16 "Oddział chorób wewnętrznych");
    (utf16 "ODDZIAŁ KARDIOLOGICZNY", utf16 "Oddział kardiologiczny");
    (utf16 "REHABILITACJA KARDIOLOGICZNA",
     utf16 "Rehabilitacja kardiologiczna");
    (utf16 "ODDZIAŁ CHIRURGII OGÓLNEJ", utf16 "Oddział chirurgii ogólnej");
    (utf16 "ODDZIAŁ ORTOPEDYCZNY", utf16 "Oddział ortopedyczny");
    (utf16 "TOMOGRAFIA KOMPUTEROWA", utf16 "Tomografia komputerowa");
    (utf16 "REZONANS MAGNETYCZNY", utf16 "Rezonans magnetyczny");
    (utf16 "BADANIA ENDOSKOPOWE PRZEWODU POKARMOWEGO - GASTROSKOPIA",
     utf16 "Gastroskopia");
    (utf16 "BADANIA ENDOSKOPOWE PRZEWODU POKARMOWEGO - KOLONOSKOPIA",
     utf16 "Kolonoskopia");
    (utf16 "PORADNIA STOMATOLOGICZNA", utf16 "Poradnia stomatologiczna") ].

Definition SLASH : codeunit := 47%N.

(** [s.endsWith("/")], for the one-unit string ["/"]. *)
Fixpoint endsWith_slash (s : jsstring) : bool :=
  match s with
  | [] => false
  | [c] => codeunit_eqb c SLASH
  | _ :: s' => endsWith_slash s'
  end.

(** [s.slice(0, -1)]: all but the last unit. *)
Definition slice_0_minus1 (s : jsstring) : jsstring := removelast s.

(** The fields of an [NFZApiClient]. *)
Record NFZApiClient : Type := {
  baseUrl : jsstring;
  apiVersion : jsstring
}.

(** The constructor; [None] is an argument that is left out or
    [undefined], which takes the default value. *)
Definition new_NFZApiClient (baseUrl apiVersion : option jsstring)
  : NFZApiClient :=
  let baseUrl :=
    match baseUrl with
    | Some b => b
    | None => utf16 "https://api.nfz.gov.pl/app-itl-api"
    end in
  let apiVersion :=
    match apiVersion with
    | Some v => v
    | None => utf16 "1.3"
    end in
  {| baseUrl := if endsWith_slash baseUrl then slice_0_minus1 baseUrl
                else baseUrl;
     apiVersion := apiVersion |}.

(** [value.toString()] for a value that is not [undefined]. A number is a
    non-negative integer, written in decimal digits as [toString] writes
    those below 10^21 (beyond 2^53 not every integer is a number; see
    [safe_numbers]). *)
Definition param_toString (value : param) : option jsstring :=
  match value with
  | PString s => Some s
  | PNumber n => Some (N_toString n)
  | PBoolean true => Some (utf16 "true")
  | PBoolean false => Some (utf16 "false")
  | PUndefined => None
  end.

(** The pairs that the loop of [buildUrl] appends to [url.searchParams]: one
    for each property whose value is not [undefined], in the order of
    [Object.entries]. *)
Fixpoint appended (params : SearchParams) : list (jsstring * jsstring) :=
  match params with
  | [] => []
  | (key, value) :: rest =>
    match param_toString value with
    | Some s => (key, s) :: appended rest
    | None => appended rest
    end
  end.

(** The query of the address that [buildUrl] returns, before the platform
    serialises it. *)
Definition query (this : NFZApiClient) (params : option SearchParams)
  : list (jsstring * jsstring) :=
  (utf16 "api-version", apiVersion this)
    :: match params with
       | Some p => appended p
       | None => []
       end.

Record BenefitsResponse : Type := { benefits_data : list jsstring }.

Section Methods.
Variable URL : Type.
(** [url.toString()] for [new URL(address)] with the given pairs appended to
    its search parameters. *)
Variable URL_toString : jsstring -> list (jsstring * jsstring) -> URL.

Definition buildUrl (this : NFZApiClient) (endpoint : jsstring)
    (params : option SearchParams) : URL :=
  URL_toString (baseUrl this ++ endpoint) (query this params).

(** [searchBenefits]; [None] is a page or a limit that is left out. *)
Definition searchBenefits (this : NFZApiClient)
    (fetch : URL -> thrown + Response BenefitsResponse)
    (name : jsstring) (page limit : option N)
  : console * (thrown + BenefitsResponse) :=
  let page := match page with Some p => p | None => 1%N end in
  let limit := match limit with Some l => l | None => 10%N end in
  request (buildUrl this) fetch (utf16 "/benefits")
    (Some [ (utf16 "name", PString name);
            (utf16 "page", PNumber page);
            (utf16 "limit", PNumber limit);
            (utf16 "format", PString (utf16 "json")) ]).

(** [getQueue]. *)
Definition getQueue (T : Type) (this : NFZApiClient)
    (fetch : URL -> thrown + Response T) (id : jsstring)
  : console * (thrown + T) :=
  request (buildUrl this) fetch (utf16 "/queues/" ++ id) None.

(** [getApiInfo]. *)
Definition getApiInfo (T : Type) (this : NFZApiClient)
    (fetch : URL -> thrown + Response T) : console * (thrown + T) :=
  request (buildUrl this) fetch (utf16 "/version") None.
End Methods.

End Client.

(* ================================================================== *)
(** ** [src/components/NFZSearch.tsx]: the referral field and the list of
       benefits *)

Module Form.
Import Api.

(** The state of the component that the handlers of the form read or
    set. *)
Record State : Type := {
  referralText : jsstring;
  selectedBenefit : jsstring;
  customBenefit : jsstring;
  useCustomBenefit : bool;
  availableBenefits : list jsstring;
  loadingBenefits : bool
}.

Section Handlers.
Variable toLowerCase : jsstring -> jsstring.
Variable toUpperCase : jsstring -> jsstring.

(** [Object.keys(COMMON_BENEFITS).find(...)] of [handleReferralChange]. *)
Definition matchedBenefit (benefit : jsstring) : option jsstring :=
  find (fun benefitKey =>
          includes (toLowerCase benefitKey) (toLowerCase benefit))
       (map fst Client.COMMON_BENEFITS).

(** [handleReferralChange] on the new value of the field; beside the state
    it gives the term [fetchBenefits] is started with, if it is. *)
Definition handleReferralChange (value : jsstring) (st : State)
  : State * option jsstring :=
  let st1 :=
    {| referralText := value;
       selectedBenefit := selectedBenefit st;
       customBenefit := customBenefit st;
       useCustomBenefit := useCustomBenefit st;
       availableBenefits := availableBenefits st;
       loadingBenefits := loadingBenefits st |} in
  if (10 <? len value)%Z then
    let parsed := Utils.parseReferral toLowerCase value in
    match Utils.benefit parsed with
    | [] => (st1, None)
    | _ =>
      match matchedBenefit (Utils.benefit parsed) with
      | Some matched =>
        ({| referralText := value;
            selectedBenefit := matched;
            customBenefit := customBenefit st;
            useCustomBenefit := false;
            availableBenefits := availableBenefits st;
            loadingBenefits := loadingBenefits st |}, None)
      | None =>
        ({| referralText := value;
            selectedBenefit := selectedBenefit st;
            customBenefit := toUpperCase (Utils.benefit parsed);
            useCustomBenefit := true;
            availableBenefits := availableBenefits st;
            loadingBenefits := loadingBenefits st |},
         if (3 <=? len (Utils.benefit parsed))%Z
         then Some (Utils.benefit parsed) else None)
      end
    end
  else (st1, None).
End Handlers.

(** [handleBenefitChange] on the value chosen in the list. *)
Definition handleBenefitChange (value : jsstring) (st : State) : State :=
  if jsstring_eqb value (utf16 "custom") then
    {| referralText := referralText st;
       selectedBenefit := selectedBenefit st;
       customBenefit := customBenefit st;
       useCustomBenefit := true;
       availableBenefits := availableBenefits st;
       loadingBenefits := loadingBenefits st |}
  else
    {| referralText := referralText st;
       selectedBenefit := value;
       customBenefit := customBenefit st;
       useCustomBenefit := false;
       availableBenefits := availableBenefits st;
       loadingBenefits := loadingBenefits st |}.

Section FetchBenefits.
Variable URL : Type.
Variable URL_toString : jsstring -> list (jsstring * jsstring) -> URL.
Variable fetch : URL -> thrown + Response Client.BenefitsResponse.
(** The property [apiVersion] of the component. *)
Variable apiVersion : jsstring.

(** [fetchBenefits]; [None] is a call without a term, which looks for
    "poradnia". *)
Definition fetchBenefits (searchTerm : option jsstring) (st : State)
  : State * console :=
  let searchTerm :=
    match searchTerm with
    | Some term => term
    | None => utf16 "poradnia"
    end in
  let nfzClient := Client.new_NFZApiClient None (Some apiVersion) in
  match Client.searchBenefits URL_toString nfzClient fetch searchTerm
          (Some 1%N) (Some 25%N) with
  | (lines, inr response) =>
    ({| referralText := referralText st;
        selectedBenefit := selectedBenefit st;
        customBenefit := customBenefit st;
        useCustomBenefit := useCustomBenefit st;
        availableBenefits := Client.benefits_data response;
        loadingBenefits := false |}, lines)
  | (lines, inl err) =>
    ({| referralText := referralText st;
        selectedBenefit := selectedBenefit st;
        customBenefit := customBenefit st;
        useCustomBenefit := useCustomBenefit st;
        availableBenefits := availableBenefits st;
        loadingBenefits := false |},
     lines ++ [(utf16 "Error fetching benefits:", err)])
  end.
End FetchBenefits.

End Form.

(* ================================================================== *)
(** ** Vocabulary of the statements *)

(** [p] occurs in [s]. *)
Definition occurs (p s : jsstring) : Prop := exists a b, s = a ++ p ++ b.

(** [s] has no space. *)
Definition spaceless (s : jsstring) : Prop := ~ In SPACE s.

(** [t] is the stretch of [s] around the first occurrence of [kw] that runs
    from the previous space (or the start of the text) to the next space (or
    the end of the text). *)
Definition token_around (s kw t : jsstring) : Prop :=
  exists a1 a2 b1 b2,
    s = a1 ++ a2 ++ kw ++ b1 ++ b2 /\ t = a2 ++ kw ++ b1 /\
    spaceless a2 /\ spaceless b1 /\
    (a1 = [] \/ exists a0, a1 = a0 ++ [SPACE]) /\
    (b2 = [] \/ exists b0, b2 = SPACE :: b0) /\
    (forall a' b', s = a' ++ kw ++ b' ->
       (List.length (a1 ++ a2) <= List.length a')%nat).

(** [kw] is the first word of the list [kws], in the order of the list, that
    occurs in [s]. *)
Definition first_listed (kws : list jsstring) (s kw : jsstring) : Prop :=
  exists pre post,
    kws = pre ++ kw :: post /\ occurs kw s /\
    forall k, In k pre -> ~ occurs k s.

(** The error carries the text [reason] in its message. *)
Definition carries (e : Api.thrown) (reason : jsstring) : Prop :=
  match e with
  | Api.Error message => occurs reason message
  | _ => False
  end.

(** *** Sample data *)

(** A queue of the registry for the benefit "PORADNIA KARDIOLOGICZNA". *)
Definition sample_queue (id provider locality : string) (applicable : bool)
    (date : string) (latitude longitude : R) : Api.Queue :=
  {| Api.type := utf16 "queue";
     Api.queue_id := utf16 id;
     Api.attributes :=
       {| Api.case_ := 1;
          Api.benefit := utf16 "PORADNIA KARDIOLOGICZNA";
          Api.provider := utf16 provider;
          Api.place := utf16 "PORADNIA KARDIOLOGICZNA";
          Api.address := [];
          Api.locality := utf16 locality;
          Api.phone := [];
          Api.latitude := latitude;
          Api.longitude := longitude;
          Api.dates :=
            {| Api.applicable := applicable;
               Api.date := utf16 date;
               Api.date_situation_as_at := utf16 "2025-01-31" |} |} |}.

(** The component before a search in the default province, with the benefit
    chosen from the list. *)
Definition ready (userLocation : option NFZSearch.Location) : NFZSearch.State :=
  {| NFZSearch.selectedBenefit := utf16 "PORADNIA KARDIOLOGICZNA";
     NFZSearch.customBenefit := [];
     NFZSearch.useCustomBenefit := false;
     NFZSearch.userLocation := userLocation;
     NFZSearch.province := utf16 "07";
     NFZSearch.locality := [];
     NFZSearch.benefitsForChildren := false;
     NFZSearch.results := [];
     NFZSearch.loading := false;
     NFZSearch.error := None;
     NFZSearch.summary := None |}.

(** A registry that answers every request with the same response. *)
Definition answering (T : Type) (response : Api.Response T)
  : jsstring -> Api.thrown + Api.Response T :=
  fun _ => inr response.

(** The address of a request, for a client whose [buildUrl] only keeps the
    endpoint. *)
Definition endpoint_only (endpoint : jsstring) (params : option Api.SearchParams)
  : jsstring := endpoint.

(** The error envelope the registry sends for a province it does not know. *)
Definition invalid_province : Api.NFZError :=
  {| Api.id := utf16 "4a1b";
     Api.error_result := utf16 "bad request";
     Api.error_reason := utf16 "invalid province";
     Api.error_solution := utf16 "use a province code from 01 to 16";
     Api.error_help := utf16 "https://api.nfz.gov.pl/app-itl-api/";
     Api.error_code := 4 |}.

(** *** Vocabulary of the further statements *)

(** Two white-space units stand side by side somewhere in [s]. *)
Fixpoint has_whitespace_run (s : jsstring) : bool :=
  match s with
  | [] => false
  | c :: r =>
    match r with
    | [] => false
    | d :: _ => (is_whitespace c && is_whitespace d) || has_whitespace_run r
    end
  end.

(** The trigger words that are written in Basic Latin. *)
Definition plain_triggers : list jsstring :=
  [utf16 "poradnia"; utf16 "pracownia"; utf16 "rehabilitacja"].

(** The code unit U+201A, the last unit of the trigger word "oddziaÅ‚". *)
Definition LOW_QUOTE : codeunit := 8218%N.

(** The quantity [a] of [calculateDistance]. *)
Definition haversine_a (lat1 lon1 lat2 lon2 : R) : R :=
  (sin (Utils.deg2rad (lat2 - lat1) / 2) * sin (Utils.deg2rad (lat2 - lat1) / 2)
   + cos (Utils.deg2rad lat1) * cos (Utils.deg2rad lat2)
     * sin (Utils.deg2rad (lon2 - lon1) / 2)
     * sin (Utils.deg2rad (lon2 - lon1) / 2))%R.

(** The record has the date string [d]. *)
Definition has_date (d : jsstring) (q : Api.Queue) : bool :=
  jsstring_eqb (Api.date (Api.dates (Api.attributes q))) d.

(** The time value of the date of a record, when the date is valid. *)
Definition date_time (q : Api.Queue) : option Z :=
  parse_date_only (Api.date (Api.dates (Api.attributes q))).

(** The date of [a] is not later than the date of [b]. *)
Definition not_later (a b : Api.Queue) : Prop :=
  match date_time a, date_time b with
  | Some ta, Some tb => (ta <= tb)%Z
  | _, _ => False
  end.

(** The record carries the distance [k]. *)
Definition at_distance (k : R) (f : NFZSearch.Facility) : bool :=
  match NFZSearch.distance f with
  | Some (Num d) => if Req_dec_T d k then true else false
  | _ => false
  end.

(** What the distance sort compares: [distance || Infinity]. *)
Definition ranking_key (f : NFZSearch.Facility) : number :=
  or_else (NFZSearch.distance f) Infinity.

(** [x <= y] for numbers that are not [NaN]. *)
Definition not_above (x y : number) : Prop :=
  match x, y with
  | NaN, _ | _, NaN => False
  | NegInfinity, _ => True
  | _, Infinity => True
  | Num a, Num b => (a <= b)%R
  | _, _ => False
  end.

(** A network that is down: every request is rejected. *)
Definition unreachable (T : Type) : jsstring -> Api.thrown + Api.Response T :=
  fun _ => inl (Api.Rejection (utf16 "Failed to fetch")).

(** A serialisation of an address and its query that writes the pairs as
    they are; the one of the platform also escapes them. *)
Fixpoint plain_query (pairs : list (jsstring * jsstring)) : jsstring :=
  match pairs with
  | [] => []
  | [(k, v)] => k ++ utf16 "=" ++ v
  | (k, v) :: rest => k ++ utf16 "=" ++ v ++ utf16 "&" ++ plain_query rest
  end.

Definition plain_URL (address : jsstring) (pairs : list (jsstring * jsstring))
  : jsstring :=
  match pairs with
  | [] => address
  | _ => address ++ utf16 "?" ++ plain_query pairs
  end.

(** The response of the registry that lists the given records. *)
Definition found (records : list Api.Queue)
  : Api.Response Api.QueuesResponse :=
  {| Api.ok := true; Api.status := 200; Api.statusText := utf16 "OK";
     Api.json := inr (Api.Data {| Api.data := records |}) |}.

(** Two records of the registry. *)
Definition two_records : list Api.Queue :=
  [ sample_queue "a" "SZPITAL A" "RADOM" true "2025-03-01" 51.4 21.15;
    sample_queue "b" "SZPITAL B" "PŁOCK" true "2025-02-15" 52.55 19.7 ].

(** The place of a user in Warsaw. *)
Definition warsaw : NFZSearch.Location :=
  {| NFZSearch.lat := 52.2297; NFZSearch.lon := 21.0122 |}.

(** A stand-in for the locale of the platform, which writes every valid
    date in the same way. *)
Definition shown_date (t : number) : jsstring :=
  match t with
  | NaN => utf16 "Invalid Date"
  | _ => utf16 "15 lutego 2025"
  end.

(** [toUpperCase] on texts written in Basic Latin and the Polish alphabet,
    the counterpart of [Utils.toLowerCase_pl]. *)
Definition upper_unit (c : codeunit) : codeunit :=
  if ((97 <=? c) && (c <=? 122))%N then (c - 32)%N
  else if (c =? 243)%N then 211%N
  else if existsb (codeunit_eqb c) [261; 263; 281; 322; 324; 347; 378; 380]%N
       then (c - 1)%N
  else c.

Definition toUpperCase_pl (s : jsstring) : jsstring := map upper_unit s.


(** The component with no province chosen. *)
Definition unchosen : NFZSearch.State :=
  {| NFZSearch.selectedBenefit := utf16 "PORADNIA KARDIOLOGICZNA";
     NFZSearch.customBenefit := [];
     NFZSearch.useCustomBenefit := false;
     NFZSearch.userLocation := None;
     NFZSearch.province := [];
     NFZSearch.locality := [];
     NFZSearch.benefitsForChildren := false;
     NFZSearch.results := [];
     NFZSearch.loading := false;
     NFZSearch.error := None;
     NFZSearch.summary := None |}.

(** The form with a new text in the referral field. *)
Definition typed (value : jsstring) (st : Form.State) : Form.State :=
  {| Form.referralText := value;
     Form.selectedBenefit := Form.selectedBenefit st;
     Form.customBenefit := Form.customBenefit st;
     Form.useCustomBenefit := Form.useCustomBenefit st;
     Form.availableBenefits := Form.availableBenefits st;
     Form.loadingBenefits := Form.loadingBenefits st |}.

(** The code unit U+000A. *)
Definition LINE_FEED : codeunit := 10%N.

(** [s] is one word: it has no white-space unit of any kind. *)
Definition one_word (s : jsstring) : bool :=
  forallb (fun c => negb (is_whitespace c)) s.


(** Three records, two of them with the same date. *)
Definition same_day : list Api.Queue :=
  [ sample_queue "a" "SZPITAL A" "RADOM" true "2025-02-15" 51.4 21.15;
    sample_queue "b" "SZPITAL B" "PŁOCK" true "2025-02-01" 52.55 19.7;
    sample_queue "c" "SZPITAL C" "SIEDLCE" true "2025-02-15" 52.17 22.29 ].


(** The quantity [a] of the haversine formula, as
    [Binary64.calculateDistance] computes it. *)
Definition binary64_a (Math_sin Math_cos : spec_float -> spec_float)
    (lat1 lon1 lat2 lon2 : spec_float) : spec_float :=
  let dLat := Binary64.deg2rad (Binary64.minus lat2 lat1) in
  let dLon := Binary64.deg2rad (Binary64.minus lon2 lon1) in
  Binary64.plus
    (Binary64.times (Math_sin (Binary64.over dLat (Binary64.of_integer 2)))
                    (Math_sin (Binary64.over dLat (Binary64.of_integer 2))))
    (Binary64.times
       (Binary64.times
          (Binary64.times (Math_cos (Binary64.deg2rad lat1))
                          (Math_cos (Binary64.deg2rad lat2)))
          (Math_sin (Binary64.over dLon (Binary64.of_integer 2))))
       (Math_sin (Binary64.over dLon (Binary64.of_integer 2)))).

(** The number is below zero. *)
Definition negative (x : spec_float) : bool :=
  SFltb x (Binary64.of_integer 0).

(** The binary64 value next above 1, 0x1.0000000000001p+0. *)
Definition above_one : spec_float := S754_finite false 4503599627370497 (-52).


(** The form before anything was typed. *)
Definition blank : Form.State :=
  {| Form.referralText := [];
     Form.selectedBenefit := [];
     Form.customBenefit := [];
     Form.useCustomBenefit := false;
     Form.availableBenefits := [];
     Form.loadingBenefits := false |}.

(* ================================================================== *)
(** ** The province table *)

(** C9. The province table has exactly 16 entries with pairwise distinct
    codes; every code is made of two digits, and looking the code up gives
    its display name, which is not empty. *)
Theorem PROVINCES_closed_set :
  List.length Api.PROVINCES = 16%nat /\
  NoDup (map fst Api.PROVINCES) /\
  Forall (fun entry =>
            Api.ProvinceCode (fst entry) /\
            Api.two_digit (fst entry) = true /\
            Api.get Api.PROVINCES (fst entry) = Some (snd entry) /\
            snd entry <> [])
         Api.PROVINCES.
Proof.
  split; [reflexivity|].
  split.
  { repeat (constructor; [ cbv; intuition discriminate | ]). constructor. }
  repeat (constructor;
          [ split; [ cbv; tauto | split; [ reflexivity | split;
              [ reflexivity | discriminate ] ] ] | ]).
  constructor.
Qed.

(* ================================================================== *)
(** ** Facts about the string functions *)

Section StringFacts.
Local Open Scope Z_scope.

Lemma codeunit_eqb_eq a b : codeunit_eqb a b = true <-> a = b.
Proof. apply N.eqb_eq. Qed.

Lemma len_app (a b : jsstring) : len (a ++ b) = len a + len b.
Proof. unfold len. rewrite length_app. lia. Qed.

Lemma len_nonneg (a : jsstring) : 0 <= len a.
Proof. unfold len. lia. Qed.

Lemma len_cons c (a : jsstring) : len (c :: a) = 1 + len a.
Proof. unfold len. simpl List.length. lia. Qed.

Lemma startsWith_spec p s : startsWith p s = true <-> exists t, s = p ++ t.
Proof.
  revert s. induction p as [|a p IH]; intros s; simpl.
  - split; [intros _; exists s; reflexivity | reflexivity].
  - destruct s as [|b s].
    + split; [discriminate | intros [t H]; discriminate].
    + rewrite andb_true_iff, codeunit_eqb_eq, IH. split.
      * intros [-> [t ->]]. exists t. reflexivity.
      * intros [t H]. injection H as -> ->. split; [reflexivity | exists t; reflexivity].
Qed.

Lemma startsWith_false p s : startsWith p s = false -> forall t, s <> p ++ t.
Proof.
  intros H t E.
  assert (startsWith p s = true) by (apply startsWith_spec; exists t; exact E).
  congruence.
Qed.

(** What [search_forward] finds: nothing exactly when [p] does not occur,
    and otherwise the first occurrence. *)
Lemma search_forward_spec p s i :
  (search_forward p s i = -1 /\ ~ occurs p s) \/
  (exists a b, s = a ++ p ++ b /\ search_forward p s i = i + len a /\
     forall a' b', s = a' ++ p ++ b' -> (List.length a <= List.length a')%nat).
Proof.
  revert i. induction s as [|c s IH]; intros i.
  - simpl. destruct (startsWith p []) eqn:E.
    + right. apply startsWith_spec in E. destruct E as [t E].
      exists [], t. split; [exact E|]. split; [unfold len; simpl; lia|].
      intros; simpl; lia.
    + left. split; [reflexivity|]. intros [a [b H]].
      destruct a; [|discriminate]. simpl in H.
      eapply startsWith_false in E. apply E. exact H.
  - simpl. destruct (startsWith p (c :: s)) eqn:E.
    + right. apply startsWith_spec in E. destruct E as [t E].
      exists [], t. split; [exact E|]. split; [unfold len; simpl; lia|].
      intros; simpl; lia.
    + destruct (IH (i + 1)) as [[H1 H2] | [a [b [H1 [H2 H3]]]]].
      * left. split; [exact H1|]. intros [a [b H]].
        destruct a as [|x a].
        -- eapply startsWith_false in E. apply E. exact H.
        -- injection H as _ H. apply H2. exists a, b. exact H.
      * right. exists (c :: a), b. split; [simpl; congruence|].
        split; [rewrite H2, len_cons; lia|].
        intros a' b' H. destruct a' as [|x a'].
        -- eapply startsWith_false in E. exfalso. apply E. exact H.
        -- injection H as _ H. apply H3 in H. simpl. lia.
Qed.

Lemma clamp_id n k : 0 <= k <= n -> clamp n k = k.
Proof. unfold clamp. lia. Qed.

Lemma indexOf_zero s p : indexOf s p 0 = search_forward p s 0.
Proof.
  unfold indexOf. rewrite clamp_id by (pose proof (len_nonneg s); lia).
  reflexivity.
Qed.

Lemma includes_occurs s p : includes s p = true <-> occurs p s.
Proof.
  unfold includes. rewrite indexOf_zero.
  destruct (search_forward_spec p s 0) as [[H1 H2] | [a [b [H1 [H2 H3]]]]].
  - rewrite H1. simpl. split; [discriminate | intros; contradiction].
  - rewrite H2. pose proof (len_nonneg a).
    split; [intros _; exists a, b; exact H1|].
    intros _. apply negb_true_iff, Z.eqb_neq. lia.
Qed.

Lemma skipn_len_app (a b : jsstring) : skipn (Z.to_nat (len a)) (a ++ b) = b.
Proof.
  unfold len. rewrite Nat2Z.id. rewrite skipn_app, skipn_all, Nat.sub_diag.
  reflexivity.
Qed.

Lemma firstn_len_app (a b : jsstring) : firstn (Z.to_nat (len a)) (a ++ b) = a.
Proof.
  unfold len. rewrite Nat2Z.id. rewrite firstn_app, firstn_all, Nat.sub_diag.
  simpl. apply app_nil_r.
Qed.

(** [substring] between the two ends of a middle part. *)
Lemma substring_middle (a m b : jsstring) :
  substring (a ++ m ++ b) (len a) (Some (len a + len m)) = m.
Proof.
  unfold substring. rewrite !len_app.
  pose proof (len_nonneg a). pose proof (len_nonneg m). pose proof (len_nonneg b).
  rewrite !clamp_id by lia.
  rewrite Z.min_l, Z.max_r by lia.
  rewrite skipn_len_app.
  replace (len a + len m - len a) with (len m) by lia.
  apply firstn_len_app.
Qed.

Lemma substring_to_end (a m : jsstring) :
  substring (a ++ m) (len a) None = m.
Proof.
  unfold substring. rewrite !len_app.
  pose proof (len_nonneg a). pose proof (len_nonneg m).
  rewrite !clamp_id by lia.
  rewrite Z.min_l, Z.max_r by lia.
  rewrite skipn_len_app.
  replace (len a + len m - len a) with (len m) by lia.
  rewrite <- (app_nil_r m) at 2. apply firstn_len_app.
Qed.

(** *** Spaces *)

Lemma spaceless_app (a b : jsstring) :
  spaceless (a ++ b) <-> spaceless a /\ spaceless b.
Proof.
  unfold spaceless. rewrite in_app_iff. tauto.
Qed.

Lemma spaceless_cons c (a : jsstring) :
  spaceless (c :: a) <-> c <> SPACE /\ spaceless a.
Proof.
  unfold spaceless. simpl. split.
  - intros H. split; [intros E; apply H; left; exact E | intros E; apply H; right; exact E].
  - intros [H1 H2] [E | E]; [apply H1; exact E | apply H2; exact E].
Qed.

Lemma startsWith_space c (s : jsstring) :
  startsWith [SPACE] (c :: s) = codeunit_eqb SPACE c.
Proof. simpl. apply andb_true_r. Qed.

(** Every string is spaceless or ends, after its last space, with a
    spaceless part. *)
Lemma last_space_split (a : jsstring) :
  spaceless a \/ exists a1 a2, a = a1 ++ SPACE :: a2 /\ spaceless a2.
Proof.
  induction a as [|c a IH].
  - left. intros [].
  - destruct IH as [IH | [a1 [a2 [-> H]]]].
    + destruct (N.eq_dec c SPACE) as [-> | Hc].
      * right. exists [], a. split; [reflexivity | exact IH].
      * left. apply spaceless_cons. split; assumption.
    + right. exists (c :: a1), a2. split; [reflexivity | exact H].
Qed.

(** Beyond the limit the backward search changes nothing. *)
Lemma search_backward_beyond p s i limit best :
  limit < i -> search_backward p s i limit best = best.
Proof.
  revert i best. induction s as [|c s IH]; intros i best H; simpl.
  - replace (i <=? limit) with false by (symmetry; apply Z.leb_gt; lia).
    reflexivity.
  - replace (i <=? limit) with false by (symmetry; apply Z.leb_gt; lia).
    simpl. apply IH. lia.
Qed.

(** A spaceless stretch is passed without a change. *)
Lemma search_backward_spaceless a r i limit best :
  spaceless a ->
  search_backward [SPACE] (a ++ r) i limit best
  = search_backward [SPACE] r (i + len a) limit best.
Proof.
  revert i. induction a as [|c a IH]; intros i H.
  - simpl. unfold len. simpl. f_equal. lia.
  - apply spaceless_cons in H. destruct H as [Hc Ha].
    change ((c :: a) ++ r) with (c :: (a ++ r)).
    cbn [search_backward]. rewrite startsWith_space.
    replace (codeunit_eqb SPACE c) with false.
    2:{ symmetry. apply not_true_is_false. rewrite codeunit_eqb_eq. congruence. }
    rewrite andb_false_r. rewrite IH by exact Ha. rewrite len_cons.
    f_equal. lia.
Qed.

(** A space within the limit is remembered. *)
Lemma search_backward_space r i limit best :
  i <= limit ->
  search_backward [SPACE] (SPACE :: r) i limit best
  = search_backward [SPACE] r (i + 1) limit i.
Proof.
  intros H. cbn [search_backward]. rewrite startsWith_space.
  replace (i <=? limit) with true by (symmetry; apply Z.leb_le; lia).
  reflexivity.
Qed.

Lemma search_backward_last_space a1 a2 r c i limit best :
  spaceless a2 -> c <> SPACE ->
  limit = i + len (a1 ++ SPACE :: a2) ->
  search_backward [SPACE] ((a1 ++ SPACE :: a2) ++ c :: r) i limit best
  = i + len a1.
Proof.
  intros H2 Hc Hl. rewrite len_app, len_cons in Hl.
  pose proof (len_nonneg a1). pose proof (len_nonneg a2).
  rewrite <- app_assoc. simpl app.
  revert i best Hl. induction a1 as [|x a1 IH]; intros i best Hl.
  - simpl app. unfold len in *. simpl List.length in *.
    rewrite search_backward_space by lia.
    rewrite search_backward_spaceless by exact H2.
    cbn [search_backward]. rewrite startsWith_space.
    replace (codeunit_eqb SPACE c) with false.
    2:{ symmetry. apply not_true_is_false. rewrite codeunit_eqb_eq. congruence. }
    rewrite andb_false_r.
    rewrite search_backward_beyond; unfold len; lia.
  - change ((x :: a1) ++ SPACE :: a2 ++ c :: r)
      with (x :: (a1 ++ SPACE :: a2 ++ c :: r)).
    cbn [search_backward]. rewrite len_cons in *.
    pose proof (len_nonneg a1).
    rewrite (IH ltac:(lia) (i + 1) _ ltac:(lia)). lia.
Qed.

Lemma search_backward_no_space a r c i limit best :
  spaceless a -> c <> SPACE -> limit = i + len a ->
  search_backward [SPACE] (a ++ c :: r) i limit best = best.
Proof.
  intros Ha Hc Hl.
  rewrite search_backward_spaceless by exact Ha.
  cbn [search_backward]. rewrite startsWith_space.
  replace (codeunit_eqb SPACE c) with false.
  2:{ symmetry. apply not_true_is_false. rewrite codeunit_eqb_eq. congruence. }
  rewrite andb_false_r. apply search_backward_beyond. lia.
Qed.

Lemma search_forward_space b i :
  (spaceless b /\ search_forward [SPACE] b i = -1) \/
  (exists b1 b2, b = b1 ++ SPACE :: b2 /\ spaceless b1 /\
     search_forward [SPACE] b i = i + len b1).
Proof.
  revert i. induction b as [|c b IH]; intros i.
  - left. split; [intros [] | reflexivity].
  - cbn [search_forward]. rewrite startsWith_space.
    destruct (codeunit_eqb SPACE c) eqn:E.
    + apply codeunit_eqb_eq in E. subst c. right.
      exists [], b. split; [reflexivity|]. split; [intros []|].
      unfold len; simpl; lia.
    + assert (Hc : c <> SPACE).
      { intros ->. unfold codeunit_eqb in E. rewrite N.eqb_refl in E. discriminate. }
      destruct (IH (i + 1)) as [[H1 H2] | [b1 [b2 [-> [H1 H2]]]]].
      * left. split; [apply spaceless_cons; split; assumption | exact H2].
      * right. exists (c :: b1), b2. split; [reflexivity|].
        split; [apply spaceless_cons; split; assumption|].
        rewrite H2, len_cons. lia.
Qed.

(** [phrase_around] cuts the text at the spaces next to the first
    occurrence of the keyword. *)
Lemma phrase_around_spec s c kw :
  c <> SPACE -> occurs (c :: kw) s ->
  token_around s (c :: kw) (Utils.phrase_around s (c :: kw)).
Proof.
  intros Hc Hocc. unfold Utils.phrase_around.
  rewrite indexOf_zero.
  destruct (search_forward_spec (c :: kw) s 0) as [[_ H] | [a [b [Hs [Hi Hmin]]]]];
    [contradiction|].
  rewrite Hi. rewrite Z.add_0_l.
  pose proof (len_nonneg a) as Ha0. pose proof (len_nonneg kw) as Hk0.
  pose proof (len_nonneg b) as Hb0.
  assert (Hlen : len s = len a + (1 + len kw) + len b).
  { rewrite Hs, !len_app, len_cons. lia. }
  (* the right end *)
  assert (Hend : exists b1 b2, b = b1 ++ b2 /\ spaceless b1 /\
            (b2 = [] \/ exists b0, b2 = SPACE :: b0) /\
            (let e := indexOf s (utf16 " ") (len a + len (c :: kw)) in
             if e >? 0 then Some e else None)
            = match b2 with
              | [] => None
              | _ => Some (len a + len (c :: kw) + len b1)
              end).
  { change (utf16 " ") with [SPACE].
    unfold indexOf. rewrite clamp_id by (rewrite len_cons; lia).
    replace (len a + len (c :: kw)) with (len (a ++ c :: kw))
      by (rewrite len_app; reflexivity).
    assert (Hskip : skipn (Z.to_nat (len (a ++ c :: kw))) s = b).
    { rewrite Hs, app_assoc. apply skipn_len_app. }
    rewrite Hskip.
    destruct (search_forward_space b (len (a ++ c :: kw)))
      as [[H1 H2] | [b1 [b2 [-> [H1 H2]]]]].
    - exists b, []. rewrite app_nil_r. repeat split; auto.
      rewrite H2. reflexivity.
    - exists b1, (SPACE :: b2). repeat split; auto.
      + right. exists b2. reflexivity.
      + rewrite H2. cbv zeta.
        replace (len (a ++ c :: kw) + len b1 >? 0) with true; [reflexivity|].
        symmetry. apply Z.gtb_lt. rewrite len_app, len_cons.
        pose proof (len_nonneg b1). lia. }
  destruct Hend as [b1 [b2 [Hb [Hb1 [Hb2 Hend]]]]].
  cbv zeta in Hend |- *. rewrite Hend. clear Hend.
  (* the left end *)
  assert (Hstart : exists a1 a2, a = a1 ++ a2 /\ spaceless a2 /\
            (a1 = [] \/ exists a0, a1 = a0 ++ [SPACE]) /\
            lastIndexOf s (utf16 " ") (len a) + 1 = len a1).
  { unfold lastIndexOf. rewrite clamp_id by lia.
    change (utf16 " ") with [SPACE].
    destruct (last_space_split a) as [Ha | [a1 [a2 [-> Ha2]]]].
    - exists [], a. repeat split; auto.
      rewrite Hs. change ((c :: kw) ++ b) with (c :: (kw ++ b)).
      rewrite search_backward_no_space by (auto; lia). reflexivity.
    - exists (a1 ++ [SPACE]), a2. rewrite <- app_assoc. repeat split; auto.
      + right. exists a1. reflexivity.
      + rewrite Hs. change ((c :: kw) ++ b) with (c :: (kw ++ b)).
        rewrite search_backward_last_space; [ | assumption | assumption | lia ].
        rewrite len_app. unfold len at 3. simpl. lia. }
  destruct Hstart as [a1 [a2 [Ha [Ha2 [Ha1 Hstart]]]]].
  rewrite Hstart.
  exists a1, a2, b1, b2.
  assert (Es : s = a1 ++ a2 ++ (c :: kw) ++ b1 ++ b2).
  { rewrite Hs, Ha, Hb, <- !app_assoc. reflexivity. }
  split; [exact Es|].
  split.
  { destruct b2 as [|x b2].
    - rewrite Es at 1. rewrite !app_nil_r.
      apply substring_to_end.
    - rewrite Es at 1.
      replace (a1 ++ a2 ++ (c :: kw) ++ b1 ++ x :: b2)
        with (a1 ++ (a2 ++ (c :: kw) ++ b1) ++ x :: b2)
        by (rewrite <- !app_assoc; reflexivity).
      replace (len a + len (c :: kw) + len b1)
        with (len a1 + len (a2 ++ (c :: kw) ++ b1))
        by (rewrite Ha, !len_app; lia).
      apply substring_middle. }
  repeat split; auto.
  intros a' b' H. rewrite <- Ha. apply (Hmin a' b' H).
Qed.

(** A spaceless string is its only word. *)
Lemma split_space_spaceless t : spaceless t -> split_space t = [t].
Proof.
  induction t as [|c t IH]; intros H; [reflexivity|].
  apply spaceless_cons in H. destruct H as [Hc Ht].
  simpl. replace (codeunit_eqb c SPACE) with false.
  2:{ symmetry. apply not_true_is_false. rewrite codeunit_eqb_eq. exact Hc. }
  rewrite IH by exact Ht. reflexivity.
Qed.

Lemma split_space_nonempty s : split_space s <> [].
Proof.
  destruct s as [|c s]; simpl; [discriminate|].
  destruct (codeunit_eqb c SPACE); [discriminate|].
  destruct (split_space s); discriminate.
Qed.

(** Splitting distributes over a space. *)
Lemma split_space_app a b :
  split_space (a ++ SPACE :: b) = split_space a ++ split_space b.
Proof.
  induction a as [|c a IH]; [reflexivity|].
  simpl. destruct (codeunit_eqb c SPACE).
  - rewrite IH. reflexivity.
  - rewrite IH. pose proof (split_space_nonempty a).
    destruct (split_space a); [contradiction | reflexivity].
Qed.

(** A stretch between spaces, or between a space and an end of the text,
    is one of the words of [split]. *)
Lemma token_in_split a1 t b2 :
  spaceless t ->
  (a1 = [] \/ exists a0, a1 = a0 ++ [SPACE]) ->
  (b2 = [] \/ exists b0, b2 = SPACE :: b0) ->
  In t (split_space (a1 ++ t ++ b2)).
Proof.
  intros Ht Ha Hb.
  assert (Hr : In t (split_space (t ++ b2))).
  { destruct Hb as [-> | [b0 ->]].
    - rewrite app_nil_r, split_space_spaceless by exact Ht. left. reflexivity.
    - rewrite split_space_app, split_space_spaceless by exact Ht.
      left. reflexivity. }
  destruct Ha as [-> | [a0 ->]]; [exact Hr|].
  rewrite <- app_assoc. simpl app. rewrite split_space_app.
  apply in_or_app. right. exact Hr.
Qed.

(** The loop over the keywords stops at the first one, in the order of the
    list, that occurs in the text. *)
Lemma first_keyword_phrase_spec s kws :
  ((forall k, In k kws -> ~ occurs k s) /\
     Utils.first_keyword_phrase s kws = []) \/
  (exists kw, first_listed kws s kw /\
     Utils.first_keyword_phrase s kws = Utils.phrase_around s kw).
Proof.
  induction kws as [|k kws IH]; simpl.
  - left. split; [intros k [] | reflexivity].
  - destruct (includes s k) eqn:E.
    + right. exists k. split; [|reflexivity].
      exists [], kws. split; [reflexivity|].
      split; [apply includes_occurs; exact E | intros k' []].
    + assert (Hk : ~ occurs k s).
      { intros H. apply includes_occurs in H. congruence. }
      destruct IH as [[H1 H2] | [kw [[pre [post [H1 [H2 H3]]]] H4]]].
      * left. split; [|exact H2].
        intros k' [<- | H]; [exact Hk | apply H1; exact H].
      * right. exists kw. split; [|exact H4].
        exists (k :: pre), post. split; [simpl; congruence|].
        split; [exact H2|].
        intros k' [<- | H]; [exact Hk | apply H3; exact H].
Qed.

(** Every trigger word starts with a unit that is not a space and has no
    space. *)
Lemma benefitKeywords_shape kw :
  In kw Utils.benefitKeywords ->
  exists c kw', kw = c :: kw' /\ c <> SPACE /\ spaceless kw'.
Proof.
  intros H. cbv in H.
  repeat (destruct H as [H | H];
    [ subst kw; eexists; eexists; split; [reflexivity|];
      split; [ discriminate | cbv; intuition discriminate ] | ]).
  contradiction.
Qed.
End StringFacts.

(* ================================================================== *)
(** ** The registry client *)

Section ClientFacts.
Variables (T URL : Type).
Variable buildUrl : jsstring -> option Api.SearchParams -> URL.
Variable fetch : URL -> Api.thrown + Api.Response T.

(** Whatever the [try] block throws reaches the caller unchanged, after
    one line on the console. *)
Lemma request_rethrows endpoint params e :
  Api.attempt fetch (buildUrl endpoint params) = inl e ->
  Api.request buildUrl fetch endpoint params
  = ([(utf16 "NFZ API request failed:", e)], inl e).
Proof. intros H. unfold Api.request. rewrite H. reflexivity. Qed.

(** [request] returns a value only when the [try] block produced it. *)
Lemma request_returns endpoint params v :
  snd (Api.request buildUrl fetch endpoint params) = inr v ->
  Api.attempt fetch (buildUrl endpoint params) = inr v.
Proof.
  unfold Api.request.
  destruct (Api.attempt fetch (buildUrl endpoint params)); simpl; congruence.
Qed.
End ClientFacts.

Lemma occurs_middle (a p b : jsstring) : occurs p (a ++ p ++ b).
Proof. exists a, b. reflexivity. Qed.

(** C6, as the code has it. When the body of the response is an error
    envelope, the call fails, after one line on the console, with an [Error]
    thrown to the caller: for a response with a success status its message is
    "NFZ API error: <reason> - <solution>" of the first error of the
    envelope, so it carries the reason; for any other status the body is not
    read and the message has only the status code and the status text. *)
Theorem request_error_envelope :
  forall (T URL : Type) (buildUrl : jsstring -> option Api.SearchParams -> URL)
         (fetch : URL -> Api.thrown + Api.Response T)
         (endpoint : jsstring) (params : option Api.SearchParams)
         (response : Api.Response T) (e : Api.NFZError) (rest : list Api.NFZError),
    fetch (buildUrl endpoint params) = inr response ->
    Api.json response = inr (Api.ErrorResponse (e :: rest)) ->
    let err :=
      if Api.ok response then
        Api.Error (utf16 "NFZ API error: " ++ Api.error_reason e
                   ++ utf16 " - " ++ Api.error_solution e)
      else
        Api.Error (utf16 "NFZ API request failed: "
                   ++ N_toString (Api.status response) ++ utf16 " "
                   ++ Api.statusText response) in
    Api.request buildUrl fetch endpoint params
    = ([(utf16 "NFZ API request failed:", err)], inl err) /\
    (Api.ok response = true -> carries err (Api.error_reason e)).
Proof.
  intros T URL buildUrl fetch endpoint params response e rest Hf Hj. cbv zeta.
  split.
  - apply request_rethrows. unfold Api.attempt. rewrite Hf.
    destruct (Api.ok response); simpl; [rewrite Hj|]; reflexivity.
  - intros Hok. rewrite Hok. cbn [carries]. apply occurs_middle.
Qed.

Lemma request_error_envelope_witness :
  let response :=
    {| Api.ok := true; Api.status := 200; Api.statusText := utf16 "OK";
       Api.json := inr (Api.ErrorResponse (T := Api.QueuesResponse)
                          [invalid_province]) |} in
  let err :=
    Api.Error (utf16 "NFZ API error: " ++ Api.error_reason invalid_province
               ++ utf16 " - " ++ Api.error_solution invalid_province) in
  Api.request endpoint_only (answering response) (utf16 "/queues") None
  = ([(utf16 "NFZ API request failed:", err)], inl err) /\
  (true = true -> carries err (Api.error_reason invalid_province)).
Proof.
  pose proof
    (@request_error_envelope Api.QueuesResponse jsstring endpoint_only
       (answering
          {| Api.ok := true; Api.status := 200; Api.statusText := utf16 "OK";
             Api.json := inr (Api.ErrorResponse [invalid_province]) |})
       (utf16 "/queues") None _ invalid_province [] eq_refl eq_refl) as H.
  cbv beta iota zeta delta [Api.ok] in H. exact H.
Defined.

(** C6, as the specification words it, fails: the registry answers with the
    status 400 and an error envelope of code 4 and reason "invalid province";
    the error the call fails with is "NFZ API request failed: 400 Bad
    Request", which does not carry the reason. *)
Lemma request_error_envelope_bad_request :
  let response :=
    {| Api.ok := false; Api.status := 400; Api.statusText := utf16 "Bad Request";
       Api.json := inr (Api.ErrorResponse (T := Api.QueuesResponse)
                          [invalid_province]) |} in
  let outcome :=
    snd (Api.request endpoint_only (answering response) (utf16 "/queues") None) in
  Api.error_code invalid_province = 4%Z /\
  outcome = inl (Api.Error (utf16 "NFZ API request failed: 400 Bad Request")) /\
  ~ (exists err, outcome = inl err /\
                 carries err (Api.error_reason invalid_province)).
Proof.
  cbv zeta. split; [reflexivity|]. split; [vm_compute; reflexivity|].
  intros [err [H1 H2]].
  assert (E : err = Api.Error (utf16 "NFZ API request failed: 400 Bad Request")).
  { vm_compute in H1. injection H1 as <-. vm_compute. reflexivity. }
  subst err. simpl carries in H2. apply includes_occurs in H2.
  vm_compute in H2. discriminate.
Qed.

(* ================================================================== *)
(** ** The referral analyzer *)

Lemma jsstring_eqb_eq (s t : jsstring) : jsstring_eqb s t = true <-> s = t.
Proof.
  revert t. induction s as [|a s IH]; intros [|b t]; simpl;
    try (split; [discriminate | intros H; discriminate]).
  - split; reflexivity.
  - rewrite andb_true_iff, codeunit_eqb_eq, IH. split.
    + intros [-> ->]. reflexivity.
    + intros H. injection H as -> ->. split; reflexivity.
Qed.

Lemma array_includes_In (l : list jsstring) (w : jsstring) :
  array_includes l w = true <-> In w l.
Proof.
  unfold array_includes. rewrite existsb_exists. split.
  - intros [x [H1 H2]]. apply jsstring_eqb_eq in H2. subst x. exact H1.
  - intros H. exists w. split; [exact H | apply jsstring_eqb_eq; reflexivity].
Qed.

(** Whatever the text, the keywords are words of the normalized text with
    more than two code units that are not stop words. *)
Lemma parseReferral_keywords_filtered toLowerCase text :
  Forall (fun word => (2 < len word)%Z /\ ~ In word Utils.stopWords
                      /\ In word (split_space (Utils.normalize toLowerCase text)))
         (Utils.keywords (Utils.parseReferral toLowerCase text)).
Proof.
  apply Forall_forall. intros w H.
  cbn [Utils.parseReferral Utils.keywords] in H.
  apply filter_In in H. destruct H as [Hin H].
  apply andb_true_iff in H. destruct H as [H1 H2].
  split; [apply Z.ltb_lt; exact H1|].
  split; [|exact Hin].
  intros Hs. apply array_includes_In in Hs.
  apply negb_true_iff in H2. congruence.
Qed.

(** C10, as the code has it. Whatever the text, the benefit returned by the
    referral analyzer has no space character (U+0020), and it is empty or one
    of the pieces that [split(" ")] cuts the normalized text into. *)
Theorem parseReferral_benefit_single_token :
  forall (toLowerCase : jsstring -> jsstring) (text : jsstring),
    let r := Utils.parseReferral toLowerCase text in
    spaceless (Utils.benefit r) /\
    (Utils.benefit r = [] \/
     In (Utils.benefit r) (split_space (Utils.normalize toLowerCase text))).
Proof.
  intros toLowerCase text. cbv zeta. cbn [Utils.parseReferral Utils.benefit].
  set (s := Utils.normalize toLowerCase text).
  destruct (first_keyword_phrase_spec s Utils.benefitKeywords)
    as [[_ H] | [kw [[pre [post [Hk [Hocc _]]]] H]]].
  - rewrite H. split; [intros [] | left; reflexivity].
  - rewrite H. clear H.
    assert (Hin : In kw Utils.benefitKeywords).
    { rewrite Hk. apply in_or_app. right. left. reflexivity. }
    destruct (benefitKeywords_shape Hin) as [c [kw' [-> [Hc Hkw']]]].
    destruct (phrase_around_spec Hc Hocc)
      as [a1 [a2 [b1 [b2 [Hs [Ht [Ha2 [Hb1 [Ha1 [Hb2 _]]]]]]]]]].
    rewrite Ht.
    assert (Hsp : spaceless (a2 ++ (c :: kw') ++ b1)).
    { apply spaceless_app. split; [exact Ha2|].
      apply spaceless_app. split; [|exact Hb1].
      apply spaceless_cons. split; assumption. }
    split; [exact Hsp|]. right.
    rewrite Hs.
    replace (a1 ++ a2 ++ (c :: kw') ++ b1 ++ b2)
      with (a1 ++ (a2 ++ (c :: kw') ++ b1) ++ b2)
      by (rewrite <- !app_assoc; reflexivity).
    apply token_in_split; assumption.
Qed.

(** C10, as the specification words it, fails: a white-space unit other
    than the space that stands alone is kept by the second [replace] and
    does not end the benefit. In the text "Skierowanie do", line feed,
    "poradnia kardiologiczna" the benefit is "do", line feed, "poradnia":
    two words. *)
Lemma parseReferral_benefit_two_words :
  let text :=
    utf16 "Skierowanie do" ++ [LINE_FEED] ++ utf16 "poradnia kardiologiczna" in
  let r := Utils.parseReferral Utils.toLowerCase_pl text in
  Utils.benefit r = utf16 "do" ++ [LINE_FEED] ++ utf16 "poradnia" /\
  ~ (Utils.benefit r = [] \/ one_word (Utils.benefit r) = true).
Proof.
  cbv zeta. split; [vm_compute; reflexivity|].
  intros [H | H]; vm_compute in H; discriminate.
Qed.

(** C5, as the code has it. For every text whose normalized form contains a
    trigger word, the benefit is cut around the trigger word that comes
    first in the fixed list of trigger words (not in the text), at the
    first place that word occurs; it runs from the previous space, or the
    start of the text, to the next space, or to the end of the text when no
    space follows. *)
Theorem parseReferral_first_listed_keyword :
  forall (toLowerCase : jsstring -> jsstring) (text : jsstring),
    (exists k, In k Utils.benefitKeywords /\
               occurs k (Utils.normalize toLowerCase text)) ->
    exists kw,
      first_listed Utils.benefitKeywords (Utils.normalize toLowerCase text) kw /\
      token_around (Utils.normalize toLowerCase text) kw
        (Utils.benefit (Utils.parseReferral toLowerCase text)).
Proof.
  intros toLowerCase text [k [Hk Hocc]].
  cbn [Utils.parseReferral Utils.benefit].
  set (s := Utils.normalize toLowerCase text) in *.
  destruct (first_keyword_phrase_spec s Utils.benefitKeywords)
    as [[Hnone _] | [kw [Hfirst H]]].
  - exfalso. exact (Hnone k Hk Hocc).
  - exists kw. split; [exact Hfirst|]. rewrite H.
    destruct Hfirst as [pre [post [Hl [Hkw _]]]].
    assert (Hin : In kw Utils.benefitKeywords).
    { rewrite Hl. apply in_or_app. right. left. reflexivity. }
    destruct (benefitKeywords_shape Hin) as [c [kw' [-> [Hc _]]]].
    apply phrase_around_spec; assumption.
Qed.

Lemma parseReferral_first_listed_keyword_witness :
  exists kw,
    first_listed Utils.benefitKeywords
      (Utils.normalize Utils.toLowerCase_pl
         (utf16 "Skierowanie: REHABILITACJA, poradnia ortopedyczna")) kw /\
    token_around
      (Utils.normalize Utils.toLowerCase_pl
         (utf16 "Skierowanie: REHABILITACJA, poradnia ortopedyczna")) kw
      (Utils.benefit
         (Utils.parseReferral Utils.toLowerCase_pl
            (utf16 "Skierowanie: REHABILITACJA, poradnia ortopedyczna"))).
Proof.
  apply parseReferral_first_listed_keyword.
  exists (utf16 "poradnia"). split.
  - left. reflexivity.
  - exists (utf16 "skierowanie rehabilitacja "), (utf16 " ortopedyczna").
    vm_compute. reflexivity.
Defined.

(** C5, as the specification words it, fails: in the text
    "rehabilitacja poradnia" the first trigger word in the order of the text
    is "rehabilitacja", and the benefit returned is "poradnia". *)
Lemma parseReferral_not_text_order :
  let text := utf16 "rehabilitacja poradnia" in
  let normalizedText := Utils.normalize Utils.toLowerCase_pl text in
  (exists k, In k Utils.benefitKeywords /\ occurs k normalizedText) /\
  Utils.phrase_in_text_order normalizedText = utf16 "rehabilitacja" /\
  Utils.benefit (Utils.parseReferral Utils.toLowerCase_pl text)
    = utf16 "poradnia" /\
  Utils.benefit (Utils.parseReferral Utils.toLowerCase_pl text)
    <> Utils.phrase_in_text_order normalizedText.
Proof.
  cbv zeta. split.
  - exists (utf16 "poradnia"). split; [left; reflexivity|].
    exists (utf16 "rehabilitacja "), []. vm_compute. reflexivity.
  - split; [vm_compute; reflexivity|].
    split; [vm_compute; reflexivity|].
    vm_compute. discriminate.
Qed.

(** C2, as the code has it. On the text
    "Proszę o skierowanie do poradni kardiologicznej" no trigger word occurs
    (the text has the inflected "poradni", the trigger is "poradnia"), so the
    benefit is empty; the keywords are "proszę", "skierowanie", "poradni" and
    "kardiologicznej", none of them a stop word or shorter than three code
    units. *)
Theorem parseReferral_cardiology_example :
  forall toLowerCase : jsstring -> jsstring,
    toLowerCase (utf16 "Proszę o skierowanie do poradni kardiologicznej")
    = utf16 "proszę o skierowanie do poradni kardiologicznej" ->
    let r := Utils.parseReferral toLowerCase
               (utf16 "Proszę o skierowanie do poradni kardiologicznej") in
    Utils.benefit r = [] /\
    Utils.keywords r
    = [utf16 "proszę"; utf16 "skierowanie"; utf16 "poradni";
       utf16 "kardiologicznej"] /\
    Forall (fun word => (3 <= len word)%Z /\ ~ In word Utils.stopWords)
           (Utils.keywords r).
Proof.
  intros toLowerCase H. cbv zeta.
  split; [|split].
  - cbn [Utils.parseReferral Utils.benefit]. unfold Utils.normalize.
    rewrite H. vm_compute. reflexivity.
  - cbn [Utils.parseReferral Utils.keywords]. unfold Utils.normalize.
    rewrite H. vm_compute. reflexivity.
  - eapply Forall_impl; [|apply parseReferral_keywords_filtered].
    intros w [H1 [H2 _]]. split; [lia | exact H2].
Qed.

Lemma parseReferral_cardiology_example_witness :
  let r := Utils.parseReferral Utils.toLowerCase_pl
             (utf16 "Proszę o skierowanie do poradni kardiologicznej") in
  Utils.benefit r = [] /\
  Utils.keywords r
  = [utf16 "proszę"; utf16 "skierowanie"; utf16 "poradni";
     utf16 "kardiologicznej"] /\
  Forall (fun word => (3 <= len word)%Z /\ ~ In word Utils.stopWords)
         (Utils.keywords r).
Proof.
  apply (parseReferral_cardiology_example Utils.toLowerCase_pl).
  vm_compute. reflexivity.
Defined.

(** C2, as the specification words it, fails: on that text the benefit is
    empty, so it is not a non-empty string containing
    "poradni kardiologicznej". *)
Lemma parseReferral_cardiology_benefit_empty :
  let r := Utils.parseReferral Utils.toLowerCase_pl
             (utf16 "Proszę o skierowanie do poradni kardiologicznej") in
  ~ (Utils.benefit r <> [] /\
     occurs (utf16 "poradni kardiologicznej") (Utils.benefit r) /\
     Forall (fun word => (3 <= len word)%Z /\ ~ In word Utils.stopWords)
            (Utils.keywords r)).
Proof.
  cbv zeta. intros [H _]. apply H. vm_compute. reflexivity.
Qed.

(* ================================================================== *)
(** ** The distance *)

Lemma sin_half_opp (x y k : R) :
  (sin ((x - y) * k / 2) = - sin ((y - x) * k / 2))%R.
Proof.
  replace ((x - y) * k / 2)%R with (- ((y - x) * k / 2))%R by lra.
  apply sin_neg.
Qed.

(** The quantity [a] of the haversine formula does not depend on the order
    of the two points. *)
Lemma haversine_a_symmetric (lat1 lon1 lat2 lon2 : R) :
  (sin (Utils.deg2rad (lat2 - lat1) / 2) * sin (Utils.deg2rad (lat2 - lat1) / 2)
   + cos (Utils.deg2rad lat1) * cos (Utils.deg2rad lat2)
     * sin (Utils.deg2rad (lon2 - lon1) / 2)
     * sin (Utils.deg2rad (lon2 - lon1) / 2)
   = sin (Utils.deg2rad (lat1 - lat2) / 2) * sin (Utils.deg2rad (lat1 - lat2) / 2)
     + cos (Utils.deg2rad lat2) * cos (Utils.deg2rad lat1)
       * sin (Utils.deg2rad (lon1 - lon2) / 2)
       * sin (Utils.deg2rad (lon1 - lon2) / 2))%R.
Proof.
  unfold Utils.deg2rad.
  rewrite (sin_half_opp lat1 lat2), (sin_half_opp lon1 lon2). ring.
Qed.

(** *** The same on binary64 values

    Subtraction in the other order gives the opposite number (or the same
    zero), and the sign of a product or of a quotient is the product of the
    signs: rounding to nearest is symmetric. *)
















(** When the rounded [a] is the number next above 1, as it is for some
    nearly antipodal points, [1 - a] is negative, its square root is [NaN],
    and so is the distance. *)
Lemma calculateDistance_NaN_above_one
    (Math_sin Math_cos Math_sqrt Math_round : spec_float -> spec_float)
    (Math_atan2 : spec_float -> spec_float -> spec_float)
    (lat1 lon1 lat2 lon2 : spec_float) :
  (forall x, negative x = true -> Math_sqrt x = S754_nan) ->
  (forall y, Math_atan2 y S754_nan = S754_nan) ->
  Math_round S754_nan = S754_nan ->
  binary64_a Math_sin Math_cos lat1 lon1 lat2 lon2 = above_one ->
  Binary64.calculateDistance Math_sin Math_cos Math_sqrt Math_round Math_atan2
    lat1 lon1 lat2 lon2 = S754_nan.
Proof.
  intros Hsqrt Hatan2 Hround Ha.
  unfold Binary64.calculateDistance. cbv zeta.
  unfold binary64_a in Ha. cbv zeta in Ha. rewrite Ha.
  rewrite (Hsqrt (Binary64.minus (Binary64.of_integer 1) above_one))
    by (vm_compute; reflexivity).
  rewrite Hatan2.
  replace (Binary64.times (Binary64.of_integer 2) S754_nan) with S754_nan
    by (vm_compute; reflexivity).
  replace (Binary64.times (Binary64.of_integer 6371) S754_nan) with S754_nan
    by (vm_compute; reflexivity).
  replace (Binary64.times S754_nan (Binary64.of_integer 10)) with S754_nan
    by (vm_compute; reflexivity).
  rewrite Hround. vm_compute. reflexivity.
Qed.

(** Along a meridian the central angle is the difference of the latitudes. *)
Lemma calculateDistance_meridian (lat1 lat2 lon : R) :
  (0 <= lat2 - lat1 < 180)%R ->
  Utils.calculateDistance lat1 lon lat2 lon
  = (Math_round (6371 * Utils.deg2rad (lat2 - lat1) * 10) / 10)%R.
Proof.
  intros [H0 H180]. unfold Utils.calculateDistance. cbv zeta.
  pose proof PI_RGT_0 as Hpi.
  set (x := (Utils.deg2rad (lat2 - lat1) / 2)%R).
  assert (Hx : (0 <= x < PI / 2)%R).
  { unfold x, Utils.deg2rad. split.
    - apply Rmult_le_pos; [|lra]. apply Rmult_le_pos; [lra|].
      apply Rmult_le_pos; lra.
    - apply Rmult_lt_reg_r with (r := (360 / PI)%R).
      + apply Rdiv_lt_0_compat; lra.
      + replace ((lat2 - lat1) * (PI / 180) / 2 * (360 / PI))%R
          with (lat2 - lat1)%R by (field; lra).
        replace (PI / 2 * (360 / PI))%R with 180%R by (field; lra).
        exact H180. }
  replace (lon - lon)%R with 0%R by ring.
  replace (Utils.deg2rad 0 / 2)%R with 0%R by (unfold Utils.deg2rad; lra).
  rewrite sin_0, Rmult_0_r, Rplus_0_r.
  assert (Hsin : (0 <= sin x)%R) by (apply sin_ge_0; lra).
  assert (Hcos : (0 < cos x)%R) by (apply cos_gt_0; lra).
  rewrite (sqrt_square (sin x) Hsin).
  replace (1 - sin x * sin x)%R with (cos x * cos x)%R.
  2:{ pose proof (sin2_cos2 x) as H. unfold Rsqr in H. lra. }
  rewrite (sqrt_square (cos x)) by lra.
  unfold Math_atan2.
  destruct (Rcompare_spec (cos x) 0) as [E | E | E]; try lra.
  change (sin x / cos x)%R with (tan x).
  rewrite atan_tan by lra.
  f_equal. f_equal. unfold x. lra.
Qed.

(** [Math.round] stays within a half of its argument. *)
Lemma Math_round_bounds (x : R) :
  (x - / 2 < Math_round x <= x + / 2)%R.
Proof.
  unfold Math_round. destruct (base_Int_part (x + / 2)) as [H1 H2]. lra.
Qed.

Lemma PI_bounds : (3 < PI <= 4)%R.
Proof. pose proof PI2_3_2. pose proof PI_4. lra. Qed.

(* ================================================================== *)
(** ** Numbers and sorting *)

Lemma positive_Num (r : R) : positive (Num r) = true <-> (0 < r)%R.
Proof.
  unfold positive. destruct (Rlt_dec 0 r); split; auto; discriminate.
Qed.

Lemma positive_Num_false (r : R) : (r <= 0)%R -> positive (Num r) = false.
Proof.
  intros H. apply not_true_is_false. rewrite positive_Num. lra.
Qed.

Lemma truthy_Num (r : R) : truthy (Num r) = true <-> r <> 0%R.
Proof.
  unfold truthy. destruct (Req_dec_T r 0); split; intros H; auto.
  discriminate.
Qed.

Lemma truthy_zero : truthy (Num 0) = false.
Proof. apply not_true_is_false. rewrite truthy_Num. auto. Qed.

Section SortFacts.
Variable A : Type.
Variable comparefn : A -> A -> number.

Lemma insert_Permutation x l : Permutation (x :: l) (insert comparefn x l).
Proof.
  induction l as [|y l IH]; simpl; [apply Permutation_refl|].
  destruct (behind comparefn x y).
  - eapply perm_trans; [apply perm_swap|]. apply perm_skip. exact IH.
  - apply Permutation_refl.
Qed.

(** Sorting drops and adds nothing. *)
Lemma Array_sort_Permutation l : Permutation l (Array_sort comparefn l).
Proof.
  induction l as [|x l IH]; simpl; [constructor|].
  eapply perm_trans; [|apply insert_Permutation].
  apply perm_skip. exact IH.
Qed.

(** For a comparison function that orders the elements of a class [P]
    consistently, a list of elements of the class comes out in ascending
    order. *)
Variable P : A -> Prop.
Hypothesis behind_asym :
  forall x y, P x -> P y ->
    behind comparefn x y = true -> behind comparefn y x = false.
Hypothesis behind_trans :
  forall x y z, P x -> P y -> P z ->
    behind comparefn y x = false -> behind comparefn z y = false ->
    behind comparefn z x = false.

Lemma insert_sorted x l :
  P x -> Forall P l ->
  StronglySorted (fun a b => behind comparefn a b = false) l ->
  StronglySorted (fun a b => behind comparefn a b = false) (insert comparefn x l).
Proof.
  intros Px Pl Hs. induction Hs as [|y l Hs IH Hy]; simpl.
  - constructor; constructor.
  - apply Forall_cons_iff in Pl. destruct Pl as [Py Pl].
    rewrite Forall_forall in Hy, Pl.
    destruct (behind comparefn x y) eqn:E.
    + constructor; [apply IH; apply Forall_forall; exact Pl|].
      apply Forall_forall. intros z Hz.
      apply (Permutation_in _ (Permutation_sym (insert_Permutation x l))) in Hz.
      destruct Hz as [<- | Hz].
      * apply behind_asym; assumption.
      * apply Hy. exact Hz.
    + constructor; [constructor; [assumption | apply Forall_forall; exact Hy]|].
      constructor; [exact E|].
      apply Forall_forall. intros z Hz.
      apply behind_trans with (y := y); auto.
Qed.

Lemma Array_sort_sorted l :
  Forall P l ->
  StronglySorted (fun a b => behind comparefn a b = false) (Array_sort comparefn l).
Proof.
  induction l as [|x l IH]; intros Pl; simpl; [constructor|].
  apply Forall_cons_iff in Pl. destruct Pl as [Px Pl].
  apply insert_sorted; [exact Px | | apply IH; exact Pl].
  apply Forall_forall. intros z Hz.
  apply (Permutation_in _ (Permutation_sym (Array_sort_Permutation l))) in Hz.
  rewrite Forall_forall in Pl. apply Pl. exact Hz.
Qed.
End SortFacts.

(** A comparison function that subtracts keys orders consistently the
    elements whose key is not [NaN]. *)
Section KeyOrder.
Variable A : Type.
Variable key : A -> number.
Variable comparefn : A -> A -> number.
Hypothesis comparefn_key : forall a b, comparefn a b = sub (key a) (key b).

Lemma behind_key_asym x y :
  key x <> NaN -> key y <> NaN ->
  behind comparefn x y = true -> behind comparefn y x = false.
Proof.
  unfold behind. rewrite !comparefn_key. intros Hx Hy.
  destruct (key x) as [| | |r], (key y) as [| | |r']; cbn [sub SortCompare];
    try congruence; try (intros; reflexivity); try (intros; discriminate).
  all: rewrite positive_Num; intros H1; apply positive_Num_false; lra.
Qed.

Lemma behind_key_trans x y z :
  key x <> NaN -> key y <> NaN -> key z <> NaN ->
  behind comparefn y x = false -> behind comparefn z y = false ->
  behind comparefn z x = false.
Proof.
  unfold behind. rewrite !comparefn_key. intros Hx Hy Hz.
  destruct (key x) as [| | |r], (key y) as [| | |r'], (key z) as [| | |r''];
    cbn [sub SortCompare]; try congruence;
    try (intros; reflexivity); try (intros; discriminate).
  all: intros Hyx Hzy; apply positive_Num_false;
    apply not_true_iff_false in Hyx, Hzy; rewrite ?positive_Num in Hyx, Hzy;
    try lra.
Qed.

(** A list without [NaN] keys comes out in ascending order of the keys. *)
Lemma Array_sort_by_key l :
  Forall (fun x => key x <> NaN) l ->
  StronglySorted (fun a b => behind comparefn a b = false)
                 (Array_sort comparefn l).
Proof.
  apply Array_sort_sorted.
  - intros x y. apply behind_key_asym.
  - intros x y z. apply behind_key_trans.
Qed.
End KeyOrder.

(* ================================================================== *)
(** ** Ranking and summary *)

Lemma Date_getTime_of (s : jsstring) (t : Z) :
  parse_date_only s = Some t -> Date_getTime s = Num (IZR t).
Proof. unfold Date_getTime. intros ->. reflexivity. Qed.

(** C7. Without a location the distance step returns the records as they
    are, each without a distance. *)
Theorem annotateDistance_without_location :
  forall facilitiesFound : list Api.Queue,
    NFZSearch.annotateDistance None facilitiesFound
    = map NFZSearch.unannotated facilitiesFound /\
    map NFZSearch.queue (NFZSearch.annotateDistance None facilitiesFound)
    = facilitiesFound /\
    Forall (fun f => NFZSearch.distance f = None)
           (NFZSearch.annotateDistance None facilitiesFound).
Proof.
  intros l. cbn [NFZSearch.annotateDistance].
  split; [reflexivity|]. split.
  - rewrite map_map. cbn [NFZSearch.unannotated NFZSearch.queue]. apply map_id.
  - apply Forall_forall. intros f H. apply in_map_iff in H.
    destruct H as [q [<- _]]. reflexivity.
Qed.

(** The key the distance sort compares: the distance, or [Infinity] for a
    record without one and for a distance that is [0] or [NaN]. *)
Lemma or_else_Infinity_not_NaN (d : option number) : or_else d Infinity <> NaN.
Proof.
  unfold or_else. destruct d as [[| | |r]|]; simpl; try discriminate.
  destruct (Req_dec_T r 0); discriminate.
Qed.

(** The distance sort keeps every record and leaves them in ascending order
    of that key. *)
Lemma sortByDistance_ascending (l : list NFZSearch.Facility) :
  Permutation l (NFZSearch.sortByDistance l) /\
  StronglySorted (fun a b => behind NFZSearch.byDistance a b = false)
                 (NFZSearch.sortByDistance l).
Proof.
  split; [apply Array_sort_Permutation|].
  apply (Array_sort_by_key (fun f => or_else (NFZSearch.distance f) Infinity)
           NFZSearch.byDistance (fun a b => eq_refl)).
  apply Forall_forall. intros f _. apply or_else_Infinity_not_NaN.
Qed.

(** A record at a distance that is not zero is put behind another one
    exactly when it is farther. *)
Lemma behind_byDistance (a b : NFZSearch.Facility) (da db : R) :
  NFZSearch.distance a = Some (Num da) -> NFZSearch.distance b = Some (Num db) ->
  da <> 0%R -> db <> 0%R ->
  (behind NFZSearch.byDistance a b = true <-> (db < da)%R).
Proof.
  intros Ha Hb Hda Hdb. unfold behind, NFZSearch.byDistance.
  rewrite Ha, Hb. cbn [or_else].
  replace (truthy (Num da)) with true by (symmetry; apply truthy_Num; exact Hda).
  replace (truthy (Num db)) with true by (symmetry; apply truthy_Num; exact Hdb).
  cbn [sub SortCompare]. rewrite positive_Num. split; lra.
Qed.

(** A record without a distance is put behind every record at a distance that
    is not zero, and no record is put behind it. *)
Lemma behind_byDistance_missing (a b : NFZSearch.Facility) (db : R) :
  NFZSearch.distance a = None ->
  behind NFZSearch.byDistance b a = false /\
  (NFZSearch.distance b = Some (Num db) -> db <> 0%R ->
   behind NFZSearch.byDistance a b = true).
Proof.
  intros Ha. unfold behind, NFZSearch.byDistance. rewrite Ha. cbn [or_else].
  split.
  - destruct (or_else (NFZSearch.distance b) Infinity) eqn:E; try reflexivity.
    all: cbn [sub SortCompare]; apply positive_Num_false; lra.
  - intros Hb Hdb. rewrite Hb. cbn [or_else].
    replace (truthy (Num db)) with true by (symmetry; apply truthy_Num; exact Hdb).
    reflexivity.
Qed.

(** The date sort keeps every record. *)
Lemma sortByDate_Permutation (l : list Api.Queue) :
  Permutation l (NFZSearch.sortByDate l).
Proof. apply Array_sort_Permutation. Qed.

(** When every record has a date the date sort leaves them in ascending
    order of the dates. *)
Lemma sortByDate_ascending (l : list Api.Queue) :
  Forall (fun q => Date_getTime (Api.date (Api.dates (Api.attributes q))) <> NaN) l ->
  StronglySorted (fun a b => behind NFZSearch.byDate a b = false)
                 (NFZSearch.sortByDate l).
Proof.
  apply (Array_sort_by_key
           (fun q => Date_getTime (Api.date (Api.dates (Api.attributes q))))
           NFZSearch.byDate (fun a b => eq_refl)).
Qed.

(** Between two records with dates, one is put behind the other exactly when
    its date is later. *)
Lemma behind_byDate (a b : Api.Queue) (ta tb : Z) :
  parse_date_only (Api.date (Api.dates (Api.attributes a))) = Some ta ->
  parse_date_only (Api.date (Api.dates (Api.attributes b))) = Some tb ->
  (behind NFZSearch.byDate a b = true <-> (tb < ta)%Z).
Proof.
  intros Ha Hb. unfold behind, NFZSearch.byDate. cbv zeta.
  rewrite (Date_getTime_of _ Ha), (Date_getTime_of _ Hb).
  cbn [sub SortCompare]. rewrite positive_Num. split.
  - intros H. apply lt_IZR. lra.
  - intros H. apply IZR_lt in H. lra.
Qed.

(** C3, where the code departs from it. A record whose date is missing (the
    empty string, which is no date) compares as equal to every record, so it
    stays where it was: here before a record with a date. *)
Theorem sortByDate_missing_date_stays_first :
  let a := sample_queue "a" "SZPITAL A" "RADOM" false "" 51.4 21.15 in
  let b := sample_queue "b" "SZPITAL B" "PŁOCK" true "2025-02-15" 52.55 19.7 in
  Date_getTime (Api.date (Api.dates (Api.attributes a))) = NaN /\
  Date_getTime (Api.date (Api.dates (Api.attributes b)))
  = Num (IZR 1739577600000) /\
  NFZSearch.sortByDate [a; b] = [a; b].
Proof.
  cbv zeta. split; [reflexivity|].
  split; [apply Date_getTime_of; vm_compute; reflexivity|].
  unfold NFZSearch.sortByDate, Array_sort. cbn [fold_right insert].
  replace (behind NFZSearch.byDate _ _) with false; [reflexivity|].
  symmetry. unfold behind, NFZSearch.byDate.
  cbv beta iota zeta delta [sample_queue Api.date Api.dates Api.attributes].
  change (Date_getTime (utf16 "")) with NaN. cbn [sub SortCompare].
  apply positive_Num_false. lra.
Qed.

(** C4, where the code departs from it. A record at 0 km has a falsy
    distance, which the comparison replaces by [Infinity]: it is put behind a
    record at 5.2 km. *)
Theorem sortByDistance_zero_ranks_last :
  let here :=
    {| NFZSearch.queue := sample_queue "a" "SZPITAL A" "RADOM" true "2025-02-15" 51.4 21.15;
       NFZSearch.distance := Some (Num 0) |} in
  let away :=
    {| NFZSearch.queue := sample_queue "b" "SZPITAL B" "PŁOCK" true "2025-03-01" 52.55 19.7;
       NFZSearch.distance := Some (Num 5.2) |} in
  NFZSearch.sortByDistance [here; away] = [away; here].
Proof.
  cbv zeta. unfold NFZSearch.sortByDistance, Array_sort. cbn [fold_right insert].
  replace (behind NFZSearch.byDistance _ _) with true; [reflexivity|].
  symmetry. unfold behind, NFZSearch.byDistance. cbn [NFZSearch.distance or_else].
  rewrite truthy_zero.
  replace (truthy (Num 5.2)) with true
    by (symmetry; apply truthy_Num; lra).
  reflexivity.
Qed.

(** The run of [searchFacilities] when the registry returns records. *)
Lemma searchFacilities_found
    (toLocaleDateString : number -> jsstring) (URL : Type)
    (buildUrl : jsstring -> option Api.SearchParams -> URL)
    (fetch : URL -> Api.thrown + Api.Response Api.QueuesResponse)
    (st : NFZSearch.State) (response : Api.Response Api.QueuesResponse)
    (first : Api.Queue) (rest : list Api.Queue) :
  NFZSearch.province st <> [] ->
  (forall url, fetch url = inr response) ->
  Api.ok response = true ->
  Api.json response = inr (Api.Data {| Api.data := first :: rest |}) ->
  let facilitiesFound :=
    NFZSearch.annotateDistance (NFZSearch.userLocation st)
      (NFZSearch.sortByDate (first :: rest)) in
  NFZSearch.state (NFZSearch.searchFacilities toLocaleDateString buildUrl fetch st)
  = NFZSearch.set_outcome (NFZSearch.set_searching st) facilitiesFound None
      (NFZSearch.summarize toLocaleDateString facilitiesFound).
Proof.
  intros Hp Hf Hok Hj. cbv zeta. unfold NFZSearch.searchFacilities.
  destruct (NFZSearch.province st) as [|c p] eqn:E; [contradiction|].
  unfold Api.getQueues, Api.request, Api.attempt.
  rewrite Hf, Hok, Hj. reflexivity.
Qed.

(** Without a location the records shown are those of the date sort, none
    of them with a distance. *)
Lemma searchFacilities_without_location
    (toLocaleDateString : number -> jsstring) (URL : Type)
    (buildUrl : jsstring -> option Api.SearchParams -> URL)
    (fetch : URL -> Api.thrown + Api.Response Api.QueuesResponse)
    (st : NFZSearch.State) (response : Api.Response Api.QueuesResponse)
    (first : Api.Queue) (rest : list Api.Queue) :
  NFZSearch.province st <> [] ->
  (forall url, fetch url = inr response) ->
  Api.ok response = true ->
  Api.json response = inr (Api.Data {| Api.data := first :: rest |}) ->
  NFZSearch.userLocation st = None ->
  NFZSearch.results
    (NFZSearch.state
       (NFZSearch.searchFacilities toLocaleDateString buildUrl fetch st))
  = map NFZSearch.unannotated (NFZSearch.sortByDate (first :: rest)).
Proof.
  intros Hp Hf Hok Hj Hloc.
  rewrite (searchFacilities_found toLocaleDateString buildUrl fetch st Hp Hf Hok Hj).
  rewrite Hloc. reflexivity.
Qed.

(** C1, where the code departs from it. The user stands at 52 N 21 E; the
    registry returns a record A, 0.1 degree to the north with the date
    2025-03-01, and a record B, 1 degree to the north with the date
    2025-02-15. The date sort puts B first; the distance sort puts A first;
    the summary then reports the date of A, the nearest record, which is not
    the earliest date of the results. *)
Theorem searchFacilities_summary_reports_nearest_date :
  forall toLocaleDateString : number -> jsstring,
    let A := sample_queue "a" "PRZYCHODNIA A" "LEGIONOWO" true "2025-03-01" 52.1 21 in
    let B := sample_queue "b" "SZPITAL B" "CIECHANÓW" true "2025-02-15" 53 21 in
    let response :=
      {| Api.ok := true; Api.status := 200; Api.statusText := utf16 "OK";
         Api.json := inr (Api.Data {| Api.data := [A; B] |}) |} in
    let run :=
      NFZSearch.searchFacilities toLocaleDateString endpoint_only
        (answering response)
        (ready (Some {| NFZSearch.lat := 52; NFZSearch.lon := 21 |})) in
    NFZSearch.sortByDate [A; B] = [B; A] /\
    map NFZSearch.queue (NFZSearch.results (NFZSearch.state run)) = [A; B] /\
    NFZSearch.summary (NFZSearch.state run)
    = Some (utf16 "Znaleziono 2 placówek. Najbliższy termin: "
            ++ toLocaleDateString (Date_getTime (utf16 "2025-03-01"))
            ++ utf16 " w PRZYCHODNIA A (LEGIONOWO).").
Proof.
  intros toLocaleDateString A B response run.
  assert (HA : Date_getTime (Api.date (Api.dates (Api.attributes A)))
               = Num (IZR 1740787200000)).
  { apply Date_getTime_of. vm_compute. reflexivity. }
  assert (HB : Date_getTime (Api.date (Api.dates (Api.attributes B)))
               = Num (IZR 1739577600000)).
  { apply Date_getTime_of. vm_compute. reflexivity. }
  assert (Hdate : NFZSearch.sortByDate [A; B] = [B; A]).
  { unfold NFZSearch.sortByDate, Array_sort. cbn [fold_right insert].
    replace (behind NFZSearch.byDate A B) with true; [reflexivity|].
    symmetry. unfold behind, NFZSearch.byDate. cbv zeta. rewrite HA, HB.
    cbn [sub SortCompare]. apply positive_Num. lra. }
  split; [exact Hdate|].
  set (here := {| NFZSearch.lat := 52; NFZSearch.lon := 21 |}) in *.
  pose proof PI_bounds as Hpi.
  set (dA := (Math_round (6371 * Utils.deg2rad (52.1 - 52) * 10) / 10)%R).
  set (dB := (Math_round (6371 * Utils.deg2rad (53 - 52) * 10) / 10)%R).
  assert (HdA : NFZSearch.withDistance here A
                = {| NFZSearch.queue := A; NFZSearch.distance := Some (Num dA) |}).
  { unfold NFZSearch.withDistance. cbv zeta. f_equal. f_equal. f_equal.
    apply calculateDistance_meridian. simpl. lra. }
  assert (HdB : NFZSearch.withDistance here B
                = {| NFZSearch.queue := B; NFZSearch.distance := Some (Num dB) |}).
  { unfold NFZSearch.withDistance. cbv zeta. f_equal. f_equal. f_equal.
    apply calculateDistance_meridian. simpl. lra. }
  assert (BA : (10.5 < dA <= 14.3)%R).
  { unfold dA.
    destruct (Math_round_bounds (6371 * Utils.deg2rad (52.1 - 52) * 10)) as [L U].
    revert L U. generalize (Math_round (6371 * Utils.deg2rad (52.1 - 52) * 10)).
    unfold Utils.deg2rad. intros m L U. lra. }
  assert (BB : (106 < dB)%R).
  { unfold dB.
    destruct (Math_round_bounds (6371 * Utils.deg2rad (53 - 52) * 10)) as [L U].
    revert L U. generalize (Math_round (6371 * Utils.deg2rad (53 - 52) * 10)).
    unfold Utils.deg2rad. intros m L U. lra. }
  assert (Hrank : NFZSearch.annotateDistance (Some here) [B; A]
                  = [ {| NFZSearch.queue := A; NFZSearch.distance := Some (Num dA) |};
                      {| NFZSearch.queue := B; NFZSearch.distance := Some (Num dB) |} ]).
  { unfold NFZSearch.annotateDistance. cbn [map]. rewrite HdA, HdB.
    unfold NFZSearch.sortByDistance, Array_sort. cbn [fold_right insert].
    replace (behind NFZSearch.byDistance _ _) with true; [reflexivity|].
    symmetry. unfold behind, NFZSearch.byDistance.
    cbn [NFZSearch.distance or_else].
    replace (truthy (Num dB)) with true by (symmetry; apply truthy_Num; lra).
    replace (truthy (Num dA)) with true by (symmetry; apply truthy_Num; lra).
    cbn [sub SortCompare]. apply positive_Num. lra. }
  assert (Hrun : NFZSearch.state run
                 = NFZSearch.set_outcome (NFZSearch.set_searching (ready (Some here)))
                     (NFZSearch.annotateDistance (Some here) (NFZSearch.sortByDate [A; B]))
                     None
                     (NFZSearch.summarize toLocaleDateString
                        (NFZSearch.annotateDistance (Some here)
                           (NFZSearch.sortByDate [A; B])))).
  { unfold run.
    apply (@searchFacilities_found toLocaleDateString jsstring endpoint_only
             (answering response) (ready (Some here)) response A [B]).
    - discriminate.
    - reflexivity.
    - reflexivity.
    - reflexivity. }
  rewrite Hrun, Hdate, Hrank. cbn [NFZSearch.set_outcome NFZSearch.results NFZSearch.summary map NFZSearch.queue].
  split; [reflexivity|].
  cbn [NFZSearch.summarize NFZSearch.queue Utils.formatDate].
  reflexivity.
Qed.

(* ================================================================== *)
(** ** Further properties of the referral analyzer *)

Lemma is_punctuation_SPACE : is_punctuation SPACE = false.
Proof. reflexivity. Qed.

Lemma is_whitespace_SPACE : is_whitespace SPACE = true.
Proof. reflexivity. Qed.

Lemma replace_punctuation_clean (s : jsstring) :
  Forall (fun c => is_punctuation c = false) (replace_punctuation s).
Proof.
  unfold replace_punctuation. induction s as [|c s IH]; simpl; constructor.
  - destruct (is_punctuation c) eqn:E; [reflexivity | exact E].
  - exact IH.
Qed.

(** The second [replace] writes only spaces and units of its input. *)
Lemma replace_whitespace_runs_units (s : jsstring) :
  (forall c, In c (replace_whitespace_runs s) -> c = SPACE \/ In c s) /\
  (forall c, In c (in_run s) -> c = SPACE \/ In c s).
Proof.
  induction s as [|x r [IH1 IH2]]; [split; intros c []|].
  split; intros c H.
  - cbn [replace_whitespace_runs] in H.
    destruct (is_whitespace x).
    + destruct r as [|d r'].
      * destruct H as [<- | []]. right. left. reflexivity.
      * destruct (is_whitespace d).
        -- destruct H as [<- | H]; [left; reflexivity|].
           destruct (IH2 c H); [left | right; right]; assumption.
        -- destruct H as [<- | H]; [right; left; reflexivity|].
           destruct (IH1 c H); [left | right; right]; assumption.
    + destruct H as [<- | H]; [right; left; reflexivity|].
      destruct (IH1 c H); [left | right; right]; assumption.
  - cbn [in_run] in H. destruct (is_whitespace x).
    + destruct (IH2 c H); [left | right; right]; assumption.
    + destruct H as [<- | H]; [right; left; reflexivity|].
      destruct (IH1 c H); [left | right; right]; assumption.
Qed.

Lemma normalize_clean (toLowerCase : jsstring -> jsstring) (text : jsstring)
    (c : codeunit) :
  In c (Utils.normalize toLowerCase text) -> is_punctuation c = false.
Proof.
  unfold Utils.normalize. intros H.
  destruct (proj1 (replace_whitespace_runs_units _) c H) as [-> | H'].
  - apply is_punctuation_SPACE.
  - pose proof (replace_punctuation_clean (toLowerCase text)) as F.
    rewrite Forall_forall in F. apply F. exact H'.
Qed.

(** X1. Whatever the text, its normalized form has none of the punctuation
    marks of the class that the first [replace] removes. *)
Theorem normalize_no_punctuation :
  forall (toLowerCase : jsstring -> jsstring) (text : jsstring),
    Forall (fun c => is_punctuation c = false)
           (Utils.normalize toLowerCase text).
Proof.
  intros toLowerCase text. apply Forall_forall. intros c H.
  apply (normalize_clean toLowerCase text c H).
Qed.

Lemma has_whitespace_run_cons (c d : codeunit) (t : jsstring) :
  has_whitespace_run (c :: d :: t)
  = (is_whitespace c && is_whitespace d) || has_whitespace_run (d :: t).
Proof. reflexivity. Qed.

Lemma has_whitespace_run_after (c : codeunit) (t : jsstring) :
  is_whitespace c = false ->
  has_whitespace_run (c :: t) = has_whitespace_run t.
Proof.
  intros H. destruct t as [|d t]; [reflexivity|].
  rewrite has_whitespace_run_cons, H. reflexivity.
Qed.

Lemma replace_whitespace_runs_no_run (s : jsstring) :
  has_whitespace_run (replace_whitespace_runs s) = false /\
  (has_whitespace_run (in_run s) = false /\
   forall x t, in_run s = x :: t -> is_whitespace x = false).
Proof.
  induction s as [|c r [IH1 [IH2 IH3]]].
  - repeat split; try reflexivity. intros x t H. discriminate.
  - split; [|split].
    + cbn [replace_whitespace_runs].
      destruct (is_whitespace c) eqn:Ec.
      * destruct r as [|d r']; [reflexivity|].
        destruct (is_whitespace d) eqn:Ed.
        -- destruct (in_run (d :: r')) as [|x t] eqn:E; [reflexivity|].
           rewrite has_whitespace_run_cons.
           rewrite (IH3 x t eq_refl), andb_false_r. exact IH2.
        -- cbn [replace_whitespace_runs] in IH1 |- *. rewrite Ed in IH1 |- *.
           rewrite has_whitespace_run_cons, Ed, andb_false_r. exact IH1.
      * rewrite has_whitespace_run_after by exact Ec. exact IH1.
    + cbn [in_run]. destruct (is_whitespace c) eqn:Ec; [exact IH2|].
      rewrite has_whitespace_run_after by exact Ec. exact IH1.
    + cbn [in_run]. intros x t H. destruct (is_whitespace c) eqn:Ec.
      * apply (IH3 x t H).
      * injection H as <- _. exact Ec.
Qed.

(** X2. Whatever the text, no two white-space units stand side by side in
    its normalized form. *)
Theorem normalize_no_whitespace_run :
  forall (toLowerCase : jsstring -> jsstring) (text : jsstring),
    has_whitespace_run (Utils.normalize toLowerCase text) = false.
Proof.
  intros. unfold Utils.normalize. apply replace_whitespace_runs_no_run.
Qed.

(** The two outcomes of the analysis of a text. *)
Lemma parseReferral_benefit_cases
    (toLowerCase : jsstring -> jsstring) (text : jsstring) :
  let s := Utils.normalize toLowerCase text in
  let r := Utils.parseReferral toLowerCase text in
  ((forall k, In k Utils.benefitKeywords -> ~ occurs k s) /\
   Utils.benefit r = []) \/
  (exists kw, first_listed Utils.benefitKeywords s kw /\
              In kw Utils.benefitKeywords /\
              token_around s kw (Utils.benefit r)).
Proof.
  cbv zeta. cbn [Utils.parseReferral Utils.benefit].
  set (s := Utils.normalize toLowerCase text).
  destruct (first_keyword_phrase_spec s Utils.benefitKeywords)
    as [H | [kw [Hfirst H]]]; [left; exact H|].
  right. exists kw. split; [exact Hfirst|]. rewrite H.
  destruct Hfirst as [pre [post [Hl [Hkw _]]]].
  assert (Hin : In kw Utils.benefitKeywords).
  { rewrite Hl. apply in_or_app. right. left. reflexivity. }
  split; [exact Hin|].
  destruct (benefitKeywords_shape Hin) as [c [kw' [-> [Hc _]]]].
  apply phrase_around_spec; assumption.
Qed.

Lemma token_around_occurs (s kw t : jsstring) :
  token_around s kw t -> occurs kw t /\ (len kw <= len t)%Z.
Proof.
  intros [a1 [a2 [b1 [b2 [_ [-> _]]]]]]. split.
  - exists a2, b1. reflexivity.
  - rewrite !len_app. pose proof (len_nonneg a2). pose proof (len_nonneg b1). lia.
Qed.

Lemma benefitKeywords_long (kw : jsstring) :
  In kw Utils.benefitKeywords -> (8 <= len kw)%Z.
Proof.
  intros H. cbv in H.
  repeat (destruct H as [H | H]; [subst kw; vm_compute; discriminate|]).
  contradiction.
Qed.

(** X3. The benefit is empty exactly when no trigger word occurs in the
    normalized text; otherwise it contains a trigger word that occurs in the
    text and has at least 8 code units. *)
Theorem parseReferral_benefit_empty_iff :
  forall (toLowerCase : jsstring -> jsstring) (text : jsstring),
    let s := Utils.normalize toLowerCase text in
    let r := Utils.parseReferral toLowerCase text in
    (Utils.benefit r = [] <->
     forall k, In k Utils.benefitKeywords -> ~ occurs k s) /\
    (Utils.benefit r = [] \/
     exists kw, In kw Utils.benefitKeywords /\ occurs kw s /\
                occurs kw (Utils.benefit r) /\ (8 <= len (Utils.benefit r))%Z).
Proof.
  intros toLowerCase text. cbv zeta.
  pose proof (parseReferral_benefit_cases toLowerCase text) as H.
  cbv zeta in H.
  set (s := Utils.normalize toLowerCase text) in *.
  set (r := Utils.parseReferral toLowerCase text) in *.
  destruct H as [[Hnone Hb] | [kw [Hfirst [Hin Htok]]]].
  - split; [|left; exact Hb]. split; [intros _; exact Hnone | intros _; exact Hb].
  - destruct (token_around_occurs Htok) as [Hocc Hlen].
    pose proof (benefitKeywords_long Hin) as H8.
    assert (Hs : occurs kw s) by (destruct Hfirst as [? [? [_ [H _]]]]; exact H).
    split.
    + split.
      * intros E. rewrite E in Hlen. unfold len in Hlen at 2. simpl in Hlen. lia.
      * intros Hnone. exfalso. exact (Hnone kw Hin Hs).
    + right. exists kw. repeat split; auto. lia.
Qed.

(** The words of [split(" ")] have no space and are made of units of the
    text. *)
Lemma split_space_words (s w : jsstring) :
  In w (split_space s) -> spaceless w /\ (forall c, In c w -> In c s).
Proof.
  revert w. induction s as [|c s IH]; intros w H.
  - destruct H as [<- | []]. split; [intros [] | intros c []].
  - cbn [split_space] in H. destruct (codeunit_eqb c SPACE) eqn:E.
    + destruct H as [<- | H]; [split; [intros [] | intros x []]|].
      destruct (IH w H) as [H1 H2]. split; [exact H1|].
      intros x Hx. right. apply H2. exact Hx.
    + assert (Hc : c <> SPACE).
      { intros ->. unfold codeunit_eqb in E. rewrite N.eqb_refl in E. discriminate. }
      pose proof (split_space_nonempty s) as Hne.
      destruct (split_space s) as [|w0 ws]; [contradiction|].
      destruct H as [<- | H].
      * destruct (IH w0 (or_introl eq_refl)) as [H1 H2]. split.
        -- apply spaceless_cons. split; assumption.
        -- intros x [<- | Hx]; [left; reflexivity | right; apply H2; exact Hx].
      * destruct (IH w (or_intror H)) as [H1 H2]. split; [exact H1|].
        intros x Hx. right. apply H2. exact Hx.
Qed.

(** X4. Every keyword has at least three code units, no space and no
    punctuation mark of the class, and is not a stop word. *)
Theorem parseReferral_keywords_clean :
  forall (toLowerCase : jsstring -> jsstring) (text : jsstring),
    Forall (fun word =>
              (3 <= len word)%Z /\ spaceless word /\
              Forall (fun c => is_punctuation c = false) word /\
              ~ In word Utils.stopWords)
           (Utils.keywords (Utils.parseReferral toLowerCase text)).
Proof.
  intros toLowerCase text. apply Forall_forall. intros w H.
  cbn [Utils.parseReferral Utils.keywords] in H.
  apply filter_In in H. destruct H as [Hin H].
  apply andb_true_iff in H. destruct H as [H1 H2].
  apply Z.ltb_lt in H1. apply negb_true_iff in H2.
  destruct (split_space_words _ _ Hin) as [Hsp Hunits].
  split; [lia|]. split; [exact Hsp|]. split.
  - apply Forall_forall. intros c Hc.
    apply (normalize_clean toLowerCase text). apply Hunits. exact Hc.
  - intros Hs. apply array_includes_In in Hs. congruence.
Qed.

Lemma occurs_In (p s : jsstring) (c : codeunit) :
  occurs p s -> In c p -> In c s.
Proof.
  intros [a [b ->]] H. apply in_or_app. right. apply in_or_app. left. exact H.
Qed.

(** X5. In a text whose normalized form has no code unit U+201A the trigger
    word written "oddziaÅ‚" in the source never matches: the benefit is empty
    or contains one of "poradnia", "pracownia", "rehabilitacja". *)
Theorem parseReferral_ward_never_matches :
  forall (toLowerCase : jsstring -> jsstring) (text : jsstring),
    ~ In LOW_QUOTE (Utils.normalize toLowerCase text) ->
    let r := Utils.parseReferral toLowerCase text in
    Utils.benefit r = [] \/
    exists kw, In kw plain_triggers /\ occurs kw (Utils.benefit r).
Proof.
  intros toLowerCase text Hq. cbv zeta.
  pose proof (parseReferral_benefit_cases toLowerCase text) as H.
  cbv zeta in H.
  destruct H as [[_ Hb] | [kw [Hfirst [Hin Htok]]]]; [left; exact Hb|].
  right. exists kw. split; [|apply (token_around_occurs Htok)].
  assert (Hs : occurs kw (Utils.normalize toLowerCase text))
    by (destruct Hfirst as [? [? [_ [H _]]]]; exact H).
  cbv in Hin.
  destruct Hin as [<- | [<- | [<- | [<- | []]]]].
  - left. reflexivity.
  - exfalso. apply Hq. eapply occurs_In; [exact Hs|]. cbv. tauto.
  - right. left. reflexivity.
  - right. right. left. reflexivity.
Qed.

Lemma parseReferral_ward_never_matches_witness :
  let r := Utils.parseReferral Utils.toLowerCase_pl
             (utf16 "Skierowanie na oddział chirurgii ogólnej") in
  Utils.benefit r = [] \/
  exists kw, In kw plain_triggers /\ occurs kw (Utils.benefit r).
Proof.
  apply (parseReferral_ward_never_matches Utils.toLowerCase_pl).
  vm_compute. intuition discriminate.
Defined.

(* ================================================================== *)
(** ** Further properties of the distance *)

Lemma calculateDistance_haversine_a (lat1 lon1 lat2 lon2 : R) :
  Utils.calculateDistance lat1 lon1 lat2 lon2
  = (Math_round
       (6371 * (2 * Math_atan2 (sqrt (haversine_a lat1 lon1 lat2 lon2))
                      (sqrt (1 - haversine_a lat1 lon1 lat2 lon2))) * 10)
     / 10)%R.
Proof. reflexivity. Qed.

Lemma Math_round_zero : Math_round 0 = 0%R.
Proof.
  unfold Math_round. rewrite Rplus_0_l.
  rewrite <- (Int_part_spec (/ 2) 0); [reflexivity|]. simpl. lra.
Qed.

Lemma Math_atan2_zero_one : Math_atan2 0 1 = 0%R.
Proof.
  unfold Math_atan2. destruct (Rcompare_spec 1 0); try lra.
  replace (0 / 1)%R with 0%R by lra. apply atan_0.
Qed.

(** X6. The distance from a point to itself is 0. *)
Theorem calculateDistance_same_point :
  forall lat lon : R, Utils.calculateDistance lat lon lat lon = 0%R.
Proof.
  intros lat lon. rewrite calculateDistance_haversine_a.
  assert (Ha : haversine_a lat lon lat lon = 0%R).
  { unfold haversine_a.
    replace (lat - lat)%R with 0%R by ring.
    replace (lon - lon)%R with 0%R by ring.
    replace (Utils.deg2rad 0 / 2)%R with 0%R by (unfold Utils.deg2rad; lra).
    rewrite sin_0. ring. }
  rewrite Ha, sqrt_0, Rminus_0_r, sqrt_1, Math_atan2_zero_one.
  replace (6371 * (2 * 0) * 10)%R with 0%R by ring.
  rewrite Math_round_zero. lra.
Qed.

Lemma calculateDistance_swap (lat1 lon1 lat2 lon2 : R) :
  Utils.calculateDistance lat1 lon1 lat2 lon2
  = Utils.calculateDistance lat2 lon2 lat1 lon1.
Proof.
  unfold Utils.calculateDistance. cbv zeta.
  rewrite (haversine_a_symmetric lat1 lon1 lat2 lon2). reflexivity.
Qed.

Lemma calculateDistance_meridian_abs (lat1 lat2 lon : R) :
  (Rabs (lat2 - lat1) < 180)%R ->
  Utils.calculateDistance lat1 lon lat2 lon
  = (Math_round (6371 * Utils.deg2rad (Rabs (lat2 - lat1)) * 10) / 10)%R.
Proof.
  intros H. unfold Rabs in *.
  destruct (Rcase_abs (lat2 - lat1)) as [Hneg | Hpos].
  - rewrite calculateDistance_swap.
    rewrite calculateDistance_meridian by lra.
    replace (lat1 - lat2)%R with (- (lat2 - lat1))%R by ring. reflexivity.
  - apply calculateDistance_meridian. lra.
Qed.

(* ================================================================== *)
(** ** Further properties of the client *)

Lemma endsWith_slash_spec (s : jsstring) :
  Client.endsWith_slash s = true <-> exists s', s = s' ++ [Client.SLASH].
Proof.
  induction s as [|c s IH].
  - split; [discriminate | intros [[|x s'] H]; discriminate].
  - destruct s as [|d s].
    + cbn [Client.endsWith_slash]. rewrite codeunit_eqb_eq. split.
      * intros ->. exists []. reflexivity.
      * intros [[|x [|y s']] H]; try discriminate. injection H as ->. reflexivity.
    + change (Client.endsWith_slash (c :: d :: s))
        with (Client.endsWith_slash (d :: s)).
      rewrite IH. split.
      * intros [s' ->]. exists (c :: s'). reflexivity.
      * intros [[|x s'] H]; [discriminate|].
        injection H as _ H. exists s'. exact H.
Qed.

(** X9. The constructor keeps the address it is given, less one final
    slash: the stored address followed by the slash it dropped is the given
    one, and the stored address still ends with a slash only when the given
    one ended with two. *)
Theorem new_NFZApiClient_baseUrl :
  forall (b : jsstring) (v : option jsstring),
    let stored := Client.baseUrl (Client.new_NFZApiClient (Some b) v) in
    stored ++ (if Client.endsWith_slash b then [Client.SLASH] else []) = b /\
    (Client.endsWith_slash stored = true ->
     exists b', b = b' ++ [Client.SLASH; Client.SLASH]).
Proof.
  intros b v. cbv zeta. cbn [Client.new_NFZApiClient Client.baseUrl].
  destruct (Client.endsWith_slash b) eqn:E.
  - apply endsWith_slash_spec in E. destruct E as [s' ->].
    unfold Client.slice_0_minus1. rewrite removelast_last.
    split; [reflexivity|].
    intros H. apply endsWith_slash_spec in H. destruct H as [b' ->].
    exists b'. rewrite <- app_assoc. reflexivity.
  - split; [apply app_nil_r|]. intros H. congruence.
Qed.

(** X11. An error envelope whose list of errors is empty makes the call fail
    with a [TypeError] of the engine, not with an error of the registry. *)
Theorem request_empty_envelope :
  forall (T URL : Type) (buildUrl : jsstring -> option Api.SearchParams -> URL)
         (fetch : URL -> Api.thrown + Api.Response T)
         (endpoint : jsstring) (params : option Api.SearchParams)
         (response : Api.Response T),
    fetch (buildUrl endpoint params) = inr response ->
    Api.ok response = true ->
    Api.json response = inr (Api.ErrorResponse []) ->
    Api.request buildUrl fetch endpoint params
    = ([(utf16 "NFZ API request failed:", Api.TypeError)], inl Api.TypeError).
Proof.
  intros T URL buildUrl fetch endpoint params response Hf Hok Hj.
  unfold Api.request, Api.attempt. rewrite Hf, Hok, Hj. reflexivity.
Qed.

Lemma request_empty_envelope_witness :
  Api.request endpoint_only
    (answering
       {| Api.ok := true; Api.status := 200; Api.statusText := utf16 "OK";
          Api.json := inr (Api.ErrorResponse (T := Api.QueuesResponse) []) |})
    (utf16 "/queues") None
  = ([(utf16 "NFZ API request failed:", Api.TypeError)], inl Api.TypeError).
Proof.
  apply request_empty_envelope
    with (response :=
            {| Api.ok := true; Api.status := 200; Api.statusText := utf16 "OK";
               Api.json := inr (Api.ErrorResponse []) |});
    reflexivity.
Defined.






(* ================================================================== *)
(** ** Further properties of the search *)

Lemma StronglySorted_weaken (A : Type) (P : A -> Prop) (R R' : A -> A -> Prop)
    (l : list A) :
  (forall a b, P a -> P b -> R a b -> R' a b) ->
  Forall P l -> StronglySorted R l -> StronglySorted R' l.
Proof.
  intros HR HP HS. induction HS as [|x l HS IH Hx]; [constructor|].
  apply Forall_cons_iff in HP. destruct HP as [Px Pl].
  constructor; [apply IH; exact Pl|].
  rewrite Forall_forall in *. intros y Hy. apply HR; auto.
Qed.

(** Sorting never changes the order of elements none of which is to stand
    behind another: the sort is stable. *)
Lemma Array_sort_stable (A : Type) (comparefn : A -> A -> number)
    (c : A -> bool) (l : list A) :
  (forall x y, c x = true -> c y = true -> behind comparefn x y = false) ->
  filter c (Array_sort comparefn l) = filter c l.
Proof.
  intros Hc.
  assert (Hins : forall x l', filter c (insert comparefn x l') = filter c (x :: l')).
  { intros x l'. induction l' as [|y l' IH]; [reflexivity|].
    cbn [insert]. destruct (behind comparefn x y) eqn:E; [|reflexivity].
    cbn [filter] in *. rewrite IH.
    destruct (c x) eqn:Ex, (c y) eqn:Ey; try reflexivity.
    rewrite (Hc x y Ex Ey) in E. discriminate. }
  induction l as [|x l IH]; [reflexivity|].
  cbn [Array_sort fold_right]. fold (Array_sort comparefn l).
  rewrite Hins. cbn [filter]. rewrite IH. reflexivity.
Qed.

Lemma positive_zero : positive (Num 0) = false.
Proof. apply positive_Num_false. lra. Qed.

(** X13. When every record has a valid date, the date sort is stable: the
    records with one and the same date string keep, after the sort, the
    order the registry gave them. *)
Theorem sortByDate_stable :
  forall (d : jsstring) (l : list Api.Queue),
    Forall (fun q => date_time q <> None) l ->
    filter (has_date d) (NFZSearch.sortByDate l) = filter (has_date d) l.
Proof.
  intros d l _. apply Array_sort_stable. intros x y Hx Hy.
  unfold has_date in Hx, Hy. apply jsstring_eqb_eq in Hx, Hy.
  unfold behind, NFZSearch.byDate. cbv zeta. rewrite Hx, Hy.
  destruct (Date_getTime d); cbn [sub SortCompare]; try apply positive_zero.
  replace (r - r)%R with 0%R by ring. apply positive_zero.
Qed.

Lemma sortByDate_stable_witness :
  filter (has_date (utf16 "2025-02-15")) (NFZSearch.sortByDate same_day)
  = filter (has_date (utf16 "2025-02-15")) same_day.
Proof.
  apply sortByDate_stable.
  repeat (constructor; [vm_compute; discriminate|]). constructor.
Defined.

Lemma behind_byDate_not_later (a b : Api.Queue) :
  date_time a <> None -> date_time b <> None ->
  behind NFZSearch.byDate a b = false -> not_later a b.
Proof.
  unfold date_time, not_later, date_time. intros Ha Hb H.
  destruct (parse_date_only (Api.date (Api.dates (Api.attributes a))))
    as [ta|] eqn:Ea; [|contradiction].
  destruct (parse_date_only (Api.date (Api.dates (Api.attributes b))))
    as [tb|] eqn:Eb; [|contradiction].
  destruct (Z_le_gt_dec ta tb) as [L | G]; [exact L|].
  assert (behind NFZSearch.byDate a b = true)
    by (apply (behind_byDate a b Ea Eb); lia).
  congruence.
Qed.

(** X14. When every record has a valid date, the date sort keeps every
    record and leaves them in ascending order of the dates. *)
Theorem sortByDate_valid_dates :
  forall l : list Api.Queue,
    Forall (fun q => date_time q <> None) l ->
    Permutation l (NFZSearch.sortByDate l) /\
    StronglySorted not_later (NFZSearch.sortByDate l).
Proof.
  intros l Hv. split; [apply Array_sort_Permutation|].
  assert (Hv' : Forall (fun q => date_time q <> None) (NFZSearch.sortByDate l)).
  { apply Forall_forall. intros q Hq. rewrite Forall_forall in Hv. apply Hv.
    apply (Permutation_in _ (Permutation_sym (sortByDate_Permutation l))).
    exact Hq. }
  apply StronglySorted_weaken
    with (P := fun q => date_time q <> None)
         (R := fun a b => behind NFZSearch.byDate a b = false).
  - intros a b. apply behind_byDate_not_later.
  - exact Hv'.
  - apply sortByDate_ascending. apply Forall_forall. intros q Hq.
    rewrite Forall_forall in Hv. specialize (Hv q Hq).
    unfold date_time in Hv. unfold Date_getTime.
    destruct (parse_date_only (Api.date (Api.dates (Api.attributes q))));
      [discriminate | contradiction].
Qed.

Lemma sortByDate_valid_dates_witness :
  let l := [ sample_queue "a" "SZPITAL A" "RADOM" true "2025-03-01" 51.4 21.15;
             sample_queue "b" "SZPITAL B" "PŁOCK" true "2025-02-15" 52.55 19.7 ] in
  Permutation l (NFZSearch.sortByDate l) /\
  StronglySorted not_later (NFZSearch.sortByDate l).
Proof.
  apply sortByDate_valid_dates.
  repeat (constructor; [vm_compute; discriminate|]). constructor.
Defined.

Lemma behind_byDistance_not_above (a b : NFZSearch.Facility) :
  behind NFZSearch.byDistance a b = false ->
  not_above (ranking_key a) (ranking_key b).
Proof.
  unfold behind, NFZSearch.byDistance, ranking_key. cbv zeta.
  pose proof (or_else_Infinity_not_NaN (NFZSearch.distance a)) as Ha.
  pose proof (or_else_Infinity_not_NaN (NFZSearch.distance b)) as Hb.
  destruct (or_else (NFZSearch.distance a) Infinity) as [| | |x],
           (or_else (NFZSearch.distance b) Infinity) as [| | |y];
    cbn [sub SortCompare not_above]; try congruence; try tauto;
    try (intros H; discriminate H).
  intros H. apply not_true_iff_false in H. rewrite positive_Num in H. lra.
Qed.

(** The outcome of a search that finds records. *)
Lemma searchFacilities_results
    (toLocaleDateString : number -> jsstring) (URL : Type)
    (buildUrl : jsstring -> option Api.SearchParams -> URL)
    (fetch : URL -> Api.thrown + Api.Response Api.QueuesResponse)
    (st : NFZSearch.State) (response : Api.Response Api.QueuesResponse)
    (first : Api.Queue) (rest : list Api.Queue) :
  NFZSearch.province st <> [] ->
  (forall url, fetch url = inr response) ->
  Api.ok response = true ->
  Api.json response = inr (Api.Data {| Api.data := first :: rest |}) ->
  NFZSearch.results
    (NFZSearch.state
       (NFZSearch.searchFacilities toLocaleDateString buildUrl fetch st))
  = NFZSearch.annotateDistance (NFZSearch.userLocation st)
      (NFZSearch.sortByDate (first :: rest)) /\
  NFZSearch.summary
    (NFZSearch.state
       (NFZSearch.searchFacilities toLocaleDateString buildUrl fetch st))
  = NFZSearch.summarize toLocaleDateString
      (NFZSearch.annotateDistance (NFZSearch.userLocation st)
         (NFZSearch.sortByDate (first :: rest))).
Proof.
  intros Hp Hf Hok Hj.
  rewrite (searchFacilities_found toLocaleDateString buildUrl fetch st Hp Hf Hok Hj).
  split; reflexivity.
Qed.

Lemma annotateDistance_queues (userLocation : option NFZSearch.Location)
    (l : list Api.Queue) :
  Permutation l (map NFZSearch.queue (NFZSearch.annotateDistance userLocation l)).
Proof.
  destruct userLocation as [here|]; cbn [NFZSearch.annotateDistance].
  - eapply perm_trans;
      [|apply Permutation_map; apply Array_sort_Permutation].
    rewrite map_map. cbn [NFZSearch.withDistance NFZSearch.queue].
    rewrite map_id. apply Permutation_refl.
  - rewrite map_map. cbn [NFZSearch.unannotated NFZSearch.queue].
    rewrite map_id. apply Permutation_refl.
Qed.

(** X15. Whether the place of the user is known or not, a search that
    finds records shows each record of the registry exactly once: the
    records shown are a rearrangement of the records returned. *)
Theorem searchFacilities_keeps_records :
  forall (toLocaleDateString : number -> jsstring) (URL : Type)
         (buildUrl : jsstring -> option Api.SearchParams -> URL)
         (fetch : URL -> Api.thrown + Api.Response Api.QueuesResponse)
         (st : NFZSearch.State) (response : Api.Response Api.QueuesResponse)
         (first : Api.Queue) (rest : list Api.Queue),
    NFZSearch.province st <> [] ->
    (forall url, fetch url = inr response) ->
    Api.ok response = true ->
    Api.json response = inr (Api.Data {| Api.data := first :: rest |}) ->
    Permutation (first :: rest)
      (map NFZSearch.queue
         (NFZSearch.results
            (NFZSearch.state
               (NFZSearch.searchFacilities toLocaleDateString buildUrl fetch st)))).
Proof.
  intros tl URL buildUrl fetch st response first rest Hp Hf Hok Hj.
  rewrite (proj1 (searchFacilities_results tl buildUrl fetch st Hp Hf Hok Hj)).
  eapply perm_trans; [apply sortByDate_Permutation|].
  apply annotateDistance_queues.
Qed.

Lemma searchFacilities_keeps_records_witness :
    Permutation two_records
      (map NFZSearch.queue
         (NFZSearch.results
            (NFZSearch.state
               (NFZSearch.searchFacilities shown_date endpoint_only
                  (answering (found two_records)) (ready (Some warsaw)))))).
Proof.
  apply (@searchFacilities_keeps_records shown_date jsstring
           endpoint_only (answering (found two_records)) (ready (Some warsaw))
           (found two_records)
           (sample_queue "a" "SZPITAL A" "RADOM" true "2025-03-01" 51.4 21.15)
           [sample_queue "b" "SZPITAL B" "PŁOCK" true "2025-02-15" 52.55 19.7]).
  - discriminate.
  - reflexivity.
  - reflexivity.
  - reflexivity.
Defined.

(** X16. Whatever distances the records carry (a number, [NaN] or none),
    the distance sort keeps every record, leaves them in ascending order of
    [distance || Infinity], and is stable: the records at one and the same
    distance keep the order they had. *)
Theorem sortByDistance_sorted_stable :
  forall l : list NFZSearch.Facility,
    Permutation l (NFZSearch.sortByDistance l) /\
    StronglySorted (fun a b => not_above (ranking_key a) (ranking_key b))
                   (NFZSearch.sortByDistance l) /\
    forall k : R,
      filter (at_distance k) (NFZSearch.sortByDistance l)
      = filter (at_distance k) l.
Proof.
  intros l. destruct (sortByDistance_ascending l) as [Hperm Hsorted].
  split; [exact Hperm|]. split.
  - apply StronglySorted_weaken
      with (P := fun _ => True)
           (R := fun a b => behind NFZSearch.byDistance a b = false).
    + intros a b _ _. apply behind_byDistance_not_above.
    + apply Forall_forall. intros; exact I.
    + exact Hsorted.
  - intros k. apply Array_sort_stable. intros x y Hx Hy.
    unfold at_distance in Hx, Hy. unfold behind, NFZSearch.byDistance.
    destruct (NFZSearch.distance x) as [[| | |dx]|]; try discriminate.
    destruct (NFZSearch.distance y) as [[| | |dy]|]; try discriminate.
    destruct (Req_dec_T dx k) as [-> |]; [|discriminate].
    destruct (Req_dec_T dy k) as [-> |]; [|discriminate].
    cbn [or_else]. destruct (truthy (Num k)); cbn [sub SortCompare].
    + replace (k - k)%R with 0%R by ring. apply positive_zero.
    + apply positive_zero.
Qed.

Lemma sortByDate_sorted_not_later (l : list Api.Queue) :
  Forall (fun q => date_time q <> None) l ->
  StronglySorted not_later (NFZSearch.sortByDate l).
Proof.
  intros Hv.
  apply StronglySorted_weaken
    with (P := fun q => date_time q <> None)
         (R := fun a b => behind NFZSearch.byDate a b = false).
  - intros a b. apply behind_byDate_not_later.
  - apply Forall_forall. intros q Hq. rewrite Forall_forall in Hv. apply Hv.
    apply (Permutation_in _ (Permutation_sym (sortByDate_Permutation l))).
    exact Hq.
  - apply sortByDate_ascending. apply Forall_forall. intros q Hq.
    rewrite Forall_forall in Hv. specialize (Hv q Hq).
    unfold date_time in Hv. unfold Date_getTime.
    destruct (parse_date_only (Api.date (Api.dates (Api.attributes q))));
      [discriminate | contradiction].
Qed.

Lemma not_later_refl (q : Api.Queue) : date_time q <> None -> not_later q q.
Proof.
  unfold not_later. destruct (date_time q); [intros _; lia | contradiction].
Qed.

(** X17. When the place of the user is not known and every record has a
    valid date, the summary of a search that finds records counts all the
    records the registry returned, and the date, the provider and the
    locality it names are those of the first record shown, whose date is
    the earliest of all. *)
Theorem searchFacilities_summary :
  forall (toLocaleDateString : number -> jsstring) (URL : Type)
         (buildUrl : jsstring -> option Api.SearchParams -> URL)
         (fetch : URL -> Api.thrown + Api.Response Api.QueuesResponse)
         (st : NFZSearch.State) (response : Api.Response Api.QueuesResponse)
         (first : Api.Queue) (rest : list Api.Queue),
    NFZSearch.province st <> [] ->
    (forall url, fetch url = inr response) ->
    Api.ok response = true ->
    Api.json response = inr (Api.Data {| Api.data := first :: rest |}) ->
    NFZSearch.userLocation st = None ->
    Forall (fun q => date_time q <> None) (first :: rest) ->
    let run :=
      NFZSearch.searchFacilities toLocaleDateString buildUrl fetch st in
    exists top others,
      map NFZSearch.queue (NFZSearch.results (NFZSearch.state run))
      = top :: others /\
      Forall (fun q => not_later top q) (first :: rest) /\
      NFZSearch.summary (NFZSearch.state run)
      = Some (utf16 "Znaleziono "
              ++ N_toString (N.of_nat (List.length (first :: rest)))
              ++ utf16 " placówek. " ++ utf16 "Najbliższy termin: "
              ++ Utils.formatDate toLocaleDateString
                   (Api.date (Api.dates (Api.attributes top)))
              ++ utf16 " w " ++ Api.provider (Api.attributes top)
              ++ utf16 " (" ++ Api.locality (Api.attributes top)
              ++ utf16 ").").
Proof.
  intros tl URL buildUrl fetch st response first rest Hp Hf Hok Hj Hloc Hv.
  cbv zeta.
  destruct (searchFacilities_results tl buildUrl fetch st Hp Hf Hok Hj)
    as [Hr Hs].
  rewrite Hr, Hs, Hloc. cbn [NFZSearch.annotateDistance].
  pose proof (sortByDate_Permutation (first :: rest)) as Hperm.
  pose proof (sortByDate_sorted_not_later Hv) as Hsorted.
  pose proof (Permutation_length Hperm) as Hlen.
  destruct (NFZSearch.sortByDate (first :: rest)) as [|top others] eqn:E;
    [discriminate Hlen|].
  exists top, others. split.
  { rewrite map_map. cbn [NFZSearch.unannotated NFZSearch.queue].
    apply map_id. }
  split.
  { apply Forall_forall. intros q Hq.
    apply (Permutation_in _ Hperm) in Hq.
    inversion Hsorted as [|x l' Hs' Hall]; subst.
    destruct Hq as [<- | Hq].
    - apply not_later_refl. rewrite Forall_forall in Hv. apply Hv.
      apply (Permutation_in _ (Permutation_sym Hperm)). left. reflexivity.
    - rewrite Forall_forall in Hall. apply Hall. exact Hq. }
  cbn [map NFZSearch.summarize NFZSearch.unannotated NFZSearch.queue].
  cbn [List.length] in Hlen |- *. rewrite length_map, <- Hlen.
  reflexivity.
Qed.

Lemma searchFacilities_summary_witness :
  let run :=
    NFZSearch.searchFacilities shown_date endpoint_only
      (answering (found two_records)) (ready None) in
  exists top others,
    map NFZSearch.queue (NFZSearch.results (NFZSearch.state run))
    = top :: others /\
    Forall (fun q => not_later top q) two_records /\
    NFZSearch.summary (NFZSearch.state run)
    = Some (utf16 "Znaleziono "
            ++ N_toString (N.of_nat (List.length two_records))
            ++ utf16 " placówek. " ++ utf16 "Najbliższy termin: "
            ++ Utils.formatDate shown_date
                 (Api.date (Api.dates (Api.attributes top)))
            ++ utf16 " w " ++ Api.provider (Api.attributes top)
            ++ utf16 " (" ++ Api.locality (Api.attributes top)
            ++ utf16 ").").
Proof.
  apply (@searchFacilities_summary shown_date jsstring
           endpoint_only (answering (found two_records)) (ready None)
           (found two_records)
           (sample_queue "a" "SZPITAL A" "RADOM" true "2025-03-01" 51.4 21.15)
           [sample_queue "b" "SZPITAL B" "PŁOCK" true "2025-02-15" 52.55 19.7]).
  - discriminate.
  - reflexivity.
  - reflexivity.
  - reflexivity.
  - reflexivity.
  - repeat (constructor; [vm_compute; discriminate|]). constructor.
Defined.

(** X18. When the request fails, whatever the error, the search shows the
    one fixed message and no summary, keeps the records of the previous
    search, ends the loading, and writes the error twice on the console;
    [onResultsFound] is not called. *)
Theorem searchFacilities_failure :
  forall (toLocaleDateString : number -> jsstring) (URL : Type)
         (buildUrl : jsstring -> option Api.SearchParams -> URL)
         (fetch : URL -> Api.thrown + Api.Response Api.QueuesResponse)
         (st : NFZSearch.State) (err : Api.thrown),
    NFZSearch.province st <> [] ->
    (forall url, Api.attempt fetch url = inl err) ->
    let run :=
      NFZSearch.searchFacilities toLocaleDateString buildUrl fetch st in
    NFZSearch.results (NFZSearch.state run) = NFZSearch.results st /\
    NFZSearch.error (NFZSearch.state run) = Some NFZSearch.searchFailed /\
    NFZSearch.summary (NFZSearch.state run) = None /\
    NFZSearch.loading (NFZSearch.state run) = false /\
    NFZSearch.logged run
    = [ (utf16 "NFZ API request failed:", err);
        (utf16 "Error searching facilities:", err) ] /\
    NFZSearch.onResultsFound run = None.
Proof.
  intros tl URL buildUrl fetch st err Hp Hf. cbv zeta.
  unfold NFZSearch.searchFacilities.
  destruct (NFZSearch.province st) as [|c p] eqn:E; [contradiction|].
  unfold Api.getQueues, Api.request. rewrite Hf.
  repeat split; reflexivity.
Qed.

Lemma searchFacilities_failure_witness :
  let run :=
    NFZSearch.searchFacilities shown_date endpoint_only
      (unreachable Api.QueuesResponse) (ready None) in
  NFZSearch.results (NFZSearch.state run) = NFZSearch.results (ready None) /\
  NFZSearch.error (NFZSearch.state run) = Some NFZSearch.searchFailed /\
  NFZSearch.summary (NFZSearch.state run) = None /\
  NFZSearch.loading (NFZSearch.state run) = false /\
  NFZSearch.logged run
  = [ (utf16 "NFZ API request failed:", Api.Rejection (utf16 "Failed to fetch"));
      (utf16 "Error searching facilities:",
       Api.Rejection (utf16 "Failed to fetch")) ] /\
  NFZSearch.onResultsFound run = None.
Proof.
  apply (@searchFacilities_failure shown_date jsstring endpoint_only
           (unreachable Api.QueuesResponse) (ready None)
           (Api.Rejection (utf16 "Failed to fetch"))).
  - discriminate.
  - reflexivity.
Defined.

(** X19. When the registry returns no record, the search shows the fixed
    "no results" summary, an empty list and no error, ends the loading and
    does not call [onResultsFound]. *)
Theorem searchFacilities_no_results :
  forall (toLocaleDateString : number -> jsstring) (URL : Type)
         (buildUrl : jsstring -> option Api.SearchParams -> URL)
         (fetch : URL -> Api.thrown + Api.Response Api.QueuesResponse)
         (st : NFZSearch.State) (response : Api.Response Api.QueuesResponse),
    NFZSearch.province st <> [] ->
    (forall url, fetch url = inr response) ->
    Api.ok response = true ->
    Api.json response = inr (Api.Data {| Api.data := [] |}) ->
    let run :=
      NFZSearch.searchFacilities toLocaleDateString buildUrl fetch st in
    NFZSearch.results (NFZSearch.state run) = [] /\
    NFZSearch.summary (NFZSearch.state run) = Some NFZSearch.noResults /\
    NFZSearch.error (NFZSearch.state run) = None /\
    NFZSearch.loading (NFZSearch.state run) = false /\
    NFZSearch.logged run = [] /\
    NFZSearch.onResultsFound run = None.
Proof.
  intros tl URL buildUrl fetch st response Hp Hf Hok Hj. cbv zeta.
  unfold NFZSearch.searchFacilities.
  destruct (NFZSearch.province st) as [|c p] eqn:E; [contradiction|].
  unfold Api.getQueues, Api.request, Api.attempt. rewrite Hf, Hok, Hj.
  repeat split; reflexivity.
Qed.

Lemma searchFacilities_no_results_witness :
  let run :=
    NFZSearch.searchFacilities shown_date endpoint_only
      (answering (found [])) (ready (Some warsaw)) in
  NFZSearch.results (NFZSearch.state run) = [] /\
  NFZSearch.summary (NFZSearch.state run) = Some NFZSearch.noResults /\
  NFZSearch.error (NFZSearch.state run) = None /\
  NFZSearch.loading (NFZSearch.state run) = false /\
  NFZSearch.logged run = [] /\
  NFZSearch.onResultsFound run = None.
Proof.
  apply (@searchFacilities_no_results shown_date jsstring endpoint_only
           (answering (found [])) (ready (Some warsaw)) (found [])).
  - discriminate.
  - reflexivity.
  - reflexivity.
  - reflexivity.
Defined.



(** X21. Without a province nothing is requested: the run only sets the
    message that asks for a province; the records, the summary and the
    loading flag stay as they were. *)
Theorem searchFacilities_without_province :
  forall (toLocaleDateString : number -> jsstring) (URL : Type)
         (buildUrl : jsstring -> option Api.SearchParams -> URL)
         (fetch : URL -> Api.thrown + Api.Response Api.QueuesResponse)
         (st : NFZSearch.State),
    NFZSearch.province st = [] ->
    let run :=
      NFZSearch.searchFacilities toLocaleDateString buildUrl fetch st in
    NFZSearch.error (NFZSearch.state run) = Some NFZSearch.noProvince /\
    NFZSearch.results (NFZSearch.state run) = NFZSearch.results st /\
    NFZSearch.summary (NFZSearch.state run) = NFZSearch.summary st /\
    NFZSearch.loading (NFZSearch.state run) = NFZSearch.loading st /\
    NFZSearch.logged run = [] /\
    NFZSearch.onResultsFound run = None /\
    forall fetch' : URL -> Api.thrown + Api.Response Api.QueuesResponse,
      NFZSearch.searchFacilities toLocaleDateString buildUrl fetch' st = run.
Proof.
  intros tl URL buildUrl fetch st Hp. cbv zeta.
  unfold NFZSearch.searchFacilities. rewrite Hp.
  repeat split; reflexivity.
Qed.

Lemma searchFacilities_without_province_witness :
  let run :=
    NFZSearch.searchFacilities shown_date endpoint_only
      (answering (found two_records)) unchosen in
  NFZSearch.error (NFZSearch.state run) = Some NFZSearch.noProvince /\
  NFZSearch.results (NFZSearch.state run) = NFZSearch.results unchosen /\
  NFZSearch.summary (NFZSearch.state run) = NFZSearch.summary unchosen /\
  NFZSearch.loading (NFZSearch.state run) = NFZSearch.loading unchosen /\
  NFZSearch.logged run = [] /\
  NFZSearch.onResultsFound run = None /\
  forall fetch' : jsstring -> Api.thrown + Api.Response Api.QueuesResponse,
    NFZSearch.searchFacilities shown_date endpoint_only fetch' unchosen = run.
Proof.
  apply (@searchFacilities_without_province shown_date jsstring endpoint_only
           (answering (found two_records)) unchosen).
  reflexivity.
Defined.

(* ================================================================== *)
(** ** Properties of the form *)

(** X22. A referral text of at most 10 code units is stored and nothing
    else happens: it is not analysed, no benefit is chosen and no list of
    benefits is fetched. *)
Theorem handleReferralChange_short_text :
  forall (toLowerCase toUpperCase : jsstring -> jsstring)
         (value : jsstring) (st : Form.State),
    (len value <= 10)%Z ->
    Form.handleReferralChange toLowerCase toUpperCase value st
    = (typed value st, None).
Proof.
  intros toLowerCase toUpperCase value st H.
  unfold Form.handleReferralChange. cbv zeta.
  replace (10 <? len value)%Z with false
    by (symmetry; apply Z.ltb_ge; exact H).
  reflexivity.
Qed.

Lemma handleReferralChange_short_text_witness :
  Form.handleReferralChange Utils.toLowerCase_pl toUpperCase_pl
    (utf16 "poradnia") blank
  = (typed (utf16 "poradnia") blank, None).
Proof.
  apply handleReferralChange_short_text. vm_compute. discriminate.
Defined.

(** X23. When the benefit found in a referral text of more than 10 code
    units is the bare word "poradnia", the benefit chosen is the first of
    the table, "PORADNIA KARDIOLOGICZNA", whatever clinic the text names
    after that word. *)
Theorem handleReferralChange_poradnia :
  forall (toLowerCase toUpperCase : jsstring -> jsstring)
         (value : jsstring) (st : Form.State),
    (10 < len value)%Z ->
    Utils.benefit (Utils.parseReferral toLowerCase value) = utf16 "poradnia" ->
    occurs (toLowerCase (utf16 "poradnia"))
           (toLowerCase (utf16 "PORADNIA KARDIOLOGICZNA")) ->
    Form.handleReferralChange toLowerCase toUpperCase value st
    = ({| Form.referralText := value;
          Form.selectedBenefit := utf16 "PORADNIA KARDIOLOGICZNA";
          Form.customBenefit := Form.customBenefit st;
          Form.useCustomBenefit := false;
          Form.availableBenefits := Form.availableBenefits st;
          Form.loadingBenefits := Form.loadingBenefits st |}, None).
Proof.
  intros toLowerCase toUpperCase value st Hlen Hb Hocc.
  unfold Form.handleReferralChange. cbv zeta.
  replace (10 <? len value)%Z with true
    by (symmetry; apply Z.ltb_lt; exact Hlen).
  rewrite Hb.
  assert (Hm : Form.matchedBenefit toLowerCase (utf16 "poradnia")
               = Some (utf16 "PORADNIA KARDIOLOGICZNA")).
  { unfold Form.matchedBenefit.
    change (map fst Client.COMMON_BENEFITS)
      with (utf16 "PORADNIA KARDIOLOGICZNA"
            :: tl (map fst Client.COMMON_BENEFITS)).
    cbn [find].
    replace (includes (toLowerCase (utf16 "PORADNIA KARDIOLOGICZNA"))
               (toLowerCase (utf16 "poradnia"))) with true; [reflexivity|].
    symmetry. apply includes_occurs. exact Hocc. }
  rewrite Hm. reflexivity.
Qed.

Lemma handleReferralChange_poradnia_witness :
  Form.handleReferralChange Utils.toLowerCase_pl toUpperCase_pl
    (utf16 "Skierowanie: poradnia okulistyczna") blank
  = ({| Form.referralText := utf16 "Skierowanie: poradnia okulistyczna";
        Form.selectedBenefit := utf16 "PORADNIA KARDIOLOGICZNA";
        Form.customBenefit := Form.customBenefit blank;
        Form.useCustomBenefit := false;
        Form.availableBenefits := Form.availableBenefits blank;
        Form.loadingBenefits := Form.loadingBenefits blank |}, None).
Proof.
  apply handleReferralChange_poradnia.
  - vm_compute. reflexivity.
  - vm_compute. reflexivity.
  - exists [], (utf16 " kardiologiczna"). vm_compute. reflexivity.
Defined.

(** X24. When the benefit found in a referral text of more than 10 code
    units matches no benefit of the table, it becomes the custom benefit,
    in upper case, and the list of benefits is always fetched for it: the
    test of its length (at least 3) never fails, since it contains a trigger
    word. *)
Theorem handleReferralChange_custom :
  forall (toLowerCase toUpperCase : jsstring -> jsstring)
         (value : jsstring) (st : Form.State),
    (10 < len value)%Z ->
    Utils.benefit (Utils.parseReferral toLowerCase value) <> [] ->
    Form.matchedBenefit toLowerCase
      (Utils.benefit (Utils.parseReferral toLowerCase value)) = None ->
    Form.handleReferralChange toLowerCase toUpperCase value st
    = ({| Form.referralText := value;
          Form.selectedBenefit := Form.selectedBenefit st;
          Form.customBenefit :=
            toUpperCase (Utils.benefit (Utils.parseReferral toLowerCase value));
          Form.useCustomBenefit := true;
          Form.availableBenefits := Form.availableBenefits st;
          Form.loadingBenefits := Form.loadingBenefits st |},
       Some (Utils.benefit (Utils.parseReferral toLowerCase value))).
Proof.
  intros toLowerCase toUpperCase value st Hlen Hb Hm.
  assert (H3 : (3 <= len (Utils.benefit (Utils.parseReferral toLowerCase value)))%Z).
  { pose proof (parseReferral_benefit_cases toLowerCase value) as H.
    cbv zeta in H. destruct H as [[_ H] | [kw [_ [Hin Htok]]]]; [contradiction|].
    destruct (token_around_occurs Htok) as [_ Hl].
    pose proof (benefitKeywords_long Hin). lia. }
  unfold Form.handleReferralChange. cbv zeta.
  replace (10 <? len value)%Z with true
    by (symmetry; apply Z.ltb_lt; exact Hlen).
  destruct (Utils.benefit (Utils.parseReferral toLowerCase value))
    as [|c b] eqn:E; [contradiction|].
  rewrite Hm.
  replace (3 <=? len (c :: b))%Z with true
    by (symmetry; apply Z.leb_le; exact H3).
  reflexivity.
Qed.

Lemma handleReferralChange_custom_witness :
  Form.handleReferralChange Utils.toLowerCase_pl toUpperCase_pl
    (utf16 "Skierowanie do: pracownia tomografii") blank
  = ({| Form.referralText := utf16 "Skierowanie do: pracownia tomografii";
        Form.selectedBenefit := Form.selectedBenefit blank;
        Form.customBenefit :=
          toUpperCase_pl
            (Utils.benefit
               (Utils.parseReferral Utils.toLowerCase_pl
                  (utf16 "Skierowanie do: pracownia tomografii")));
        Form.useCustomBenefit := true;
        Form.availableBenefits := Form.availableBenefits blank;
        Form.loadingBenefits := Form.loadingBenefits blank |},
     Some (Utils.benefit
             (Utils.parseReferral Utils.toLowerCase_pl
                (utf16 "Skierowanie do: pracownia tomografii")))).
Proof.
  apply handleReferralChange_custom.
  - vm_compute. reflexivity.
  - vm_compute. discriminate.
  - vm_compute. reflexivity.
Defined.

(** X25. A failed fetch of the list of benefits is not shown to the user:
    the list and the rest of the form stay as they were, the loading ends,
    and the error is only written on the console, twice. *)
Theorem fetchBenefits_failure :
  forall (URL : Type)
         (URL_toString : jsstring -> list (jsstring * jsstring) -> URL)
         (fetch : URL -> Api.thrown + Api.Response Client.BenefitsResponse)
         (apiVersion : jsstring) (searchTerm : option jsstring)
         (st : Form.State) (err : Api.thrown),
    (forall url, Api.attempt fetch url = inl err) ->
    Form.fetchBenefits URL_toString fetch apiVersion searchTerm st
    = ({| Form.referralText := Form.referralText st;
          Form.selectedBenefit := Form.selectedBenefit st;
          Form.customBenefit := Form.customBenefit st;
          Form.useCustomBenefit := Form.useCustomBenefit st;
          Form.availableBenefits := Form.availableBenefits st;
          Form.loadingBenefits := false |},
       [ (utf16 "NFZ API request failed:", err);
         (utf16 "Error fetching benefits:", err) ]).
Proof.
  intros URL URL_toString fetch apiVersion searchTerm st err Hf.
  unfold Form.fetchBenefits, Client.searchBenefits, Api.request. cbv zeta.
  rewrite Hf. reflexivity.
Qed.

Lemma fetchBenefits_failure_witness :
  Form.fetchBenefits plain_URL (unreachable Client.BenefitsResponse)
    (utf16 "1.3") None blank
  = ({| Form.referralText := Form.referralText blank;
        Form.selectedBenefit := Form.selectedBenefit blank;
        Form.customBenefit := Form.customBenefit blank;
        Form.useCustomBenefit := Form.useCustomBenefit blank;
        Form.availableBenefits := Form.availableBenefits blank;
        Form.loadingBenefits := false |},
     [ (utf16 "NFZ API request failed:", Api.Rejection (utf16 "Failed to fetch"));
       (utf16 "Error fetching benefits:",
        Api.Rejection (utf16 "Failed to fetch")) ]).
Proof.
  apply fetchBenefits_failure. reflexivity.
Defined.



(** X27. The table of common benefits has 25 entries with pairwise distinct
    registry names, each with a display name that is not empty; the benefit
    the referral field chooses, when it chooses one, is a registry name of
    the table. *)
Theorem COMMON_BENEFITS_table :
  List.length Client.COMMON_BENEFITS = 25%nat /\
  NoDup (map fst Client.COMMON_BENEFITS) /\
  Forall (fun entry => fst entry <> [] /\ snd entry <> [])
         Client.COMMON_BENEFITS /\
  forall (toLowerCase : jsstring -> jsstring) (benefit matched : jsstring),
    Form.matchedBenefit toLowerCase benefit = Some matched ->
    In matched (map fst Client.COMMON_BENEFITS).
Proof.
  split; [reflexivity|].
  split.
  { assert (H : forall l : list jsstring,
               (fix nodup (l : list jsstring) : bool :=
                  match l with
                  | [] => true
                  | x :: r => negb (array_includes r x) && nodup r
                  end) l = true -> NoDup l).
    { induction l as [|x r IH]; intros H; [constructor|].
      apply andb_true_iff in H. destruct H as [H1 H2].
      constructor; [|apply IH; exact H2].
      intros Hin. apply array_includes_In in Hin.
      rewrite Hin in H1. discriminate. }
    apply H. vm_compute. reflexivity. }
  split.
  { repeat (constructor; [split; discriminate|]). constructor. }
  intros toLowerCase benefit matched H.
  unfold Form.matchedBenefit in H. apply find_some in H. tauto.
Qed.

(* ================================================================== *)
(** ** The distance and the ranking together *)

Lemma Math_round_below_half (x : R) :
  (0 <= x < / 2)%R -> Math_round x = 0%R.
Proof.
  intros [L U]. unfold Math_round.
  rewrite <- (Int_part_spec (x + / 2) 0); [reflexivity|]. simpl. lra.
Qed.

(** X28. A record on the meridian of the user and less than 50 m away gets
    the distance 0, which the distance sort reads as no distance at all: its
    rank is that of [Infinity]. *)
Theorem nearby_record_ranks_as_missing :
  forall (here : NFZSearch.Location) (facility : Api.Queue),
    Api.longitude (Api.attributes facility) = NFZSearch.lon here ->
    (6371 * Utils.deg2rad
              (Rabs (Api.latitude (Api.attributes facility) - NFZSearch.lat here))
     < / 20)%R ->
    NFZSearch.distance (NFZSearch.withDistance here facility) = Some (Num 0) /\
    ranking_key (NFZSearch.withDistance here facility) = Infinity.
Proof.
  intros here facility Hlon Hnear.
  pose proof PI_bounds as Hpi.
  set (d := Rabs (Api.latitude (Api.attributes facility) - NFZSearch.lat here)) in *.
  assert (Hd0 : (0 <= d)%R) by apply Rabs_pos.
  assert (Hrad : (0 <= Utils.deg2rad d)%R).
  { unfold Utils.deg2rad. apply Rmult_le_pos; [exact Hd0|].
    apply Rmult_le_pos; lra. }
  assert (Hd : (d < 180)%R).
  { destruct (Rlt_le_dec d 180) as [L | G]; [exact L|]. exfalso.
    assert ((180 * (PI / 180) <= Utils.deg2rad d)%R)
      by (unfold Utils.deg2rad; apply Rmult_le_compat_r; lra).
    lra. }
  assert (E : Utils.calculateDistance (NFZSearch.lat here) (NFZSearch.lon here)
                (Api.latitude (Api.attributes facility))
                (Api.longitude (Api.attributes facility)) = 0%R).
  { rewrite Hlon. rewrite calculateDistance_meridian_abs by exact Hd.
    fold d. rewrite Math_round_below_half by lra. lra. }
  unfold ranking_key, NFZSearch.withDistance. cbv zeta.
  cbn [NFZSearch.distance]. rewrite E. split; [reflexivity|].
  cbn [or_else]. rewrite truthy_zero. reflexivity.
Qed.

Lemma nearby_record_ranks_as_missing_witness :
  let facility :=
    sample_queue "c" "PRZYCHODNIA C" "WARSZAWA" true "2025-02-15"
      52.2299 21.0122 in
  NFZSearch.distance (NFZSearch.withDistance warsaw facility) = Some (Num 0) /\
  ranking_key (NFZSearch.withDistance warsaw facility) = Infinity.
Proof.
  apply nearby_record_ranks_as_missing.
  - reflexivity.
  - pose proof PI_bounds as Hpi.
    cbv beta iota delta [sample_queue warsaw Api.latitude Api.attributes
                         NFZSearch.lat Utils.deg2rad].
    unfold Rabs.
    destruct (Rcase_abs (52.2299 - 52.2297)); lra.
Defined.
